(** * Tale Forge: the AI-provider orchestration layer

    A shallow embedding of the shared modules of the edge functions

      - [_shared/ai-config.ts]    (provider registry),
      - [_shared/telemetry.ts]    (bounded telemetry buffer and statistics),
      - [_shared/ai-client.ts]    (retry / backoff / fallback client),
      - [_shared/health-check.ts] (startup health probes),

    together with the properties that the specification states about them.

    Conventions.  JavaScript strings are [string]s; millisecond counts,
    token counts and HTTP status codes are integers in [Z]; an ISO time
    stamp is represented by the epoch millisecond it denotes
    ([new Date(t).toISOString()] followed by [new Date(s).getTime()] is the
    identity on millisecond time stamps).  Effects (the module-level
    telemetry buffer, the clock, [fetch], [setTimeout]) are threaded through
    an explicit [World]. *)

From Stdlib Require Import ZArith List Bool Lia String Ascii QArith Permutation.
From Stdlib Require Import Numbers.DecimalString.
Import ListNotations.

Local Open Scope string_scope.
Local Open Scope list_scope.
Local Open Scope Z_scope.

(* ================================================================== *)
(** ** Strings *)

Module Str.

(** [s.startsWith(p)] *)
Fixpoint startsWith (s p : string) : bool :=
  match p, s with
  | EmptyString, _ => true
  | String _ _, EmptyString => false
  | String a p', String b s' => Ascii.eqb a b && startsWith s' p'
  end.

(** [s.includes(needle)] *)
Fixpoint includes (s needle : string) : bool :=
  startsWith s needle ||
  match s with
  | EmptyString => false
  | String _ s' => includes s' needle
  end.

(** One character of [String.prototype.toLowerCase]: the letters [A]-[Z]
    are mapped to [a]-[z]; every other code unit is kept. *)
Definition lowerChar (c : ascii) : ascii :=
  let n := N_of_ascii c in
  if (65 <=? n)%N && (n <=? 90)%N then ascii_of_N (n + 32) else c.

Fixpoint toLowerCase (s : string) : string :=
  match s with
  | EmptyString => EmptyString
  | String c s' => String (lowerChar c) (toLowerCase s')
  end.

(** Template-literal rendering of an integer: [`${n}`]. *)
Definition ofZ (n : Z) : string := NilZero.string_of_int (Z.to_int n).

Definition nonEmpty (s : string) : bool :=
  match s with EmptyString => false | String _ _ => true end.

End Str.

(* ================================================================== *)
(** ** ai-config.ts : providers and credentials *)

Module AiConfig.

Record AIProvider := mkProvider {
  name : string;
  baseUrl : string;
  model : string;
  maxTokens : Z;
  temperature : Q
}.

(** [Deno.env.get]: the process environment. *)
Definition Env := string -> option string.

Definition textPrimary : AIProvider :=
  mkProvider "OpenAI" "https://api.openai.com/v1" "gpt-4o" 400 (7 # 10).

Definition textFallback : AIProvider :=
  mkProvider "OVH" "https://oai.endpoints.kepler.ai.cloud.ovh.net/v1"
             "Meta-Llama-3_3-70B-Instruct" 400 (7 # 10).

Definition imagePrimary : AIProvider :=
  mkProvider "OVH_SDXL"
             "https://stable-diffusion-xl.endpoints.kepler.ai.cloud.ovh.net/api"
             "stable-diffusion-xl" 0 0.

(** [!!(key && !key.includes('placeholder'))]: the key is defined, not the
    empty string, and does not contain the placeholder marker. *)
Definition usableKey (key : option string) : bool :=
  match key with
  | None => false
  | Some k => Str.nonEmpty k && negb (Str.includes k "placeholder")
  end.

Definition checkProviderAvailability (env : Env) (provider : AIProvider) : bool :=
  if String.eqb (name provider) "OpenAI" then
    usableKey (env "OPENAI_API_KEY")
  else if String.eqb (name provider) "OVH" then
    usableKey (env "OVH_AI_ENDPOINTS_ACCESS_TOKEN")
  else if String.eqb (name provider) "OVH_SDXL" then
    usableKey (env "OVH_AI_ENDPOINTS_ACCESS_TOKEN")
  else false.

(** [`Bearer ${Deno.env.get(k)}`]; an unset variable is rendered as the
    text [undefined]. *)
Definition bearer (key : option string) : string :=
  ("Bearer " ++ match key with Some k => k | None => "undefined" end)%string.

(** [getAuthHeader]: [inr] is the message of the thrown [Error]. *)
Definition getAuthHeader (env : Env) (provider : AIProvider) : string + string :=
  if String.eqb (name provider) "OpenAI" then
    inl (bearer (env "OPENAI_API_KEY"))
  else if String.eqb (name provider) "OVH" || String.eqb (name provider) "OVH_SDXL" then
    inl (bearer (env "OVH_AI_ENDPOINTS_ACCESS_TOKEN"))
  else inr ("Unknown provider: " ++ name provider)%string.

(** [getAvailableTextProvider]: [inr] is the message of the thrown [Error]. *)
Definition getAvailableTextProvider (env : Env) : AIProvider + string :=
  let primaryAvailable := checkProviderAvailability env textPrimary in
  let fallbackAvailable := checkProviderAvailability env textFallback in
  if primaryAvailable then inl textPrimary
  else if fallbackAvailable then inl textFallback
  else inr "No text providers available - check API keys".

(** [getImageProvider]: [inr] is the message of the thrown [Error]. *)
Definition getImageProvider (env : Env) : AIProvider + string :=
  let imageProvider := imagePrimary in
  if negb (checkProviderAvailability env imageProvider)
  then inr ("Image provider " ++ name imageProvider
            ++ " not available - check API keys")%string
  else inl imageProvider.

End AiConfig.

(* ================================================================== *)
(** ** Values on the wire and the effects of the runtime *)

Module Wire.

Inductive Role := system | user | assistant.

Record Message := mkMessage { role : Role; content : string }.

Record AIRequest := mkRequest {
  model : string;
  messages : list Message;
  max_tokens : Z;
  temperature : Q
}.

(** [usage?: { total_tokens }] is kept as an optional token count. *)
Record AIResponse := mkResponse {
  choices : list string;
  usage : option Z
}.

(** A JavaScript [Error]. *)
Record JsError := mkError { errorName : string; message : string }.

(** [new Error(msg)] *)
Definition newError (msg : string) : JsError := mkError "Error" msg.

Inductive Result (A : Type) :=
| Ok (a : A)
| Throw (e : JsError).
Arguments Ok {A} a.
Arguments Throw {A} e.

(** One call of [fetch]. *)
Record HttpCall := mkCall {
  method : string;
  url : string;
  authorization : string;
  body : option AIRequest
}.

(** What a call of [fetch] does: it settles after [elapsed] milliseconds,
    either with a response (status code, body text, and the body parsed by
    [response.json()], which may itself reject) or with a rejection. *)
Inductive FetchOutcome :=
| Responds (elapsed : Z) (status : Z) (text : string) (json : AIResponse + JsError)
| Rejects (elapsed : Z) (e : JsError).

(** The outside world: the outcome of the [n]-th call of [fetch]. *)
Definition Network := nat -> HttpCall -> FetchOutcome.

(** [response.ok] *)
Definition responseOk (status : Z) : bool := (200 <=? status) && (status <=? 299).

End Wire.

(* ================================================================== *)
(** ** telemetry.ts *)

Module Telemetry.
Import Wire.

Inductive Status := success | failure | fallback | retry.

Definition Status_eqb (a b : Status) : bool :=
  match a, b with
  | success, success | failure, failure
  | fallback, fallback | retry, retry => true
  | _, _ => false
  end.

Record TelemetryEvent := mkEvent {
  timestamp : Z;
  functionName : string;
  provider : string;
  status : Status;
  responseTimeMs : Z;
  tokenUsage : option Z;
  errorMessage : option string;
  requestSize : option Z;
  responseSize : option Z
}.

(** [Omit<TelemetryEvent, 'timestamp' | 'functionName'>] *)
Record EventInput := mkInput {
  in_provider : string;
  in_status : Status;
  in_responseTimeMs : Z;
  in_tokenUsage : option Z;
  in_errorMessage : option string;
  in_requestSize : option Z;
  in_responseSize : option Z
}.

Definition MAX_BUFFER_SIZE : nat := 1000.

(** The observable effects, in the order in which they happen.  Every
    telemetry event is printed by [logToConsole] and every probe result by
    [logProviderHealth]; the other console lines are not recorded. *)
Inductive Effect :=
| Fetched (call : HttpCall)
| Slept (ms : Z)
| Printed (event : TelemetryEvent)
| HealthPrinted (provider : string) (isHealthy : bool) (responseTime : Z)
                (timestamp : Z).

(** The state shared by all the modules: the module-level
    [telemetryBuffer] (oldest event first), the value of [Date.now()], and
    the effects performed so far. *)
Record World := mkWorld {
  telemetryBuffer : list TelemetryEvent;
  clock : Z;
  trace : list Effect
}.

Definition fetchesOf (t : list Effect) : list HttpCall :=
  flat_map (fun e => match e with Fetched c => [c] | _ => [] end) t.

Definition sleepsOf (t : list Effect) : list Z :=
  flat_map (fun e => match e with Slept d => [d] | _ => [] end) t.

Definition printedOf (t : list Effect) : list TelemetryEvent :=
  flat_map (fun e => match e with Printed ev => [ev] | _ => [] end) t.

Definition perform (e : Effect) (w : World) : World :=
  mkWorld (telemetryBuffer w) (clock w) (trace w ++ [e]).

Definition advance (ms : Z) (w : World) : World :=
  mkWorld (telemetryBuffer w) (clock w + ms) (trace w).

Definition setBuffer (b : list TelemetryEvent) (w : World) : World :=
  mkWorld b (clock w) (trace w).

(** [telemetryBuffer.push(e); if (telemetryBuffer.length > MAX_BUFFER_SIZE)
    telemetryBuffer.shift();] *)
Definition pushRotate (e : TelemetryEvent) (buf : list TelemetryEvent)
  : list TelemetryEvent :=
  let pushed := buf ++ [e] in
  if (MAX_BUFFER_SIZE <? List.length pushed)%nat then tl pushed else pushed.

(** The object literal built by [AITelemetry.log]. *)
Definition stamp (now : Z) (fn : string) (ev : EventInput) : TelemetryEvent :=
  mkEvent now fn (in_provider ev) (in_status ev) (in_responseTimeMs ev)
          (in_tokenUsage ev) (in_errorMessage ev)
          (in_requestSize ev) (in_responseSize ev).

(** [AITelemetry.log], for the instance whose [functionName] is [fn]. *)
Definition log (fn : string) (ev : EventInput) (w : World) : World :=
  let telemetryEvent := stamp (clock w) fn ev in
  perform (Printed telemetryEvent)
          (setBuffer (pushRotate telemetryEvent (telemetryBuffer w)) w).

(** [logProviderHealth] *)
Definition logProviderHealth (provider : string) (isHealthy : bool)
           (responseTime : Z) (w : World) : World :=
  perform (HealthPrinted provider isHealthy responseTime (clock w)) w.

(** [clearTelemetryBuffer] *)
Definition clearTelemetryBuffer (w : World) : World := setBuffer [] w.

(** [getTelemetryBufferSize] *)
Definition getTelemetryBufferSize (w : World) : nat := List.length (telemetryBuffer w).

(** *** PerformanceTimer *)

Record PerformanceTimer := mkTimer {
  startTime : Z;
  timerProvider : string;
  timerFunction : string      (* the [functionName] of its [AITelemetry] *)
}.

(** [new PerformanceTimer(provider, telemetry)] *)
Definition newTimer (provider fn : string) (w : World) : PerformanceTimer :=
  mkTimer (clock w) provider fn.

Definition timerLog (t : PerformanceTimer) (st : Status)
           (tokens : option Z) (err : option string) (w : World) : World :=
  log (timerFunction t)
      (mkInput (timerProvider t) st (clock w - startTime t) tokens err None None) w.

(** The four methods; the response time they return is discarded by every
    caller and is not modelled as a result. *)
Definition timerSuccess (t : PerformanceTimer) (tokens : option Z) : World -> World :=
  timerLog t success tokens None.

Definition timerFailure (t : PerformanceTimer) (error : string) : World -> World :=
  timerLog t failure None (Some error).

Definition timerFallback (t : PerformanceTimer) (error : string) : World -> World :=
  timerLog t fallback None (Some error).

Definition timerRetry (t : PerformanceTimer) (attempt : Z) : World -> World :=
  timerLog t retry None (Some ("Retry attempt " ++ Str.ofZ attempt)%string).

End Telemetry.

(* ================================================================== *)
(** ** telemetry.ts : getTelemetryStats *)

Module TelemetryStats.
Import Wire Telemetry.

Record ProviderStats := mkStats {
  stat_provider : string;
  totalRequests : nat;
  successfulRequests : nat;
  failedRequests : nat;
  fallbackRequests : nat;
  retryRequests : nat;
  avgResponseTime : Z;
  totalTokens : Z;
  successRate : Q
}.

(** The argument [timeWindow?: number]: [None] is an omitted argument;
    a number is an integer count of milliseconds, an infinity or [NaN]. *)
Inductive TimeWindow :=
| Millis (ms : Z)
| PlusInfinity
| MinusInfinity
| NotANumber.

(** The value of [cutoffTime]. *)
Inductive Cutoff :=
| At (t : Z)
| Never       (* -Infinity: every time stamp is later *)
| Always.     (* +Infinity: no time stamp is later *)

(** JavaScript truthiness of the argument in [timeWindow ? ... : 0]. *)
Definition truthy (timeWindow : option TimeWindow) : bool :=
  match timeWindow with
  | None => false
  | Some (Millis ms) => negb (ms =? 0)
  | Some NotANumber => false
  | Some PlusInfinity | Some MinusInfinity => true
  end.

(** [Date.now() - timeWindow] *)
Definition minus (now : Z) (timeWindow : TimeWindow) : Cutoff :=
  match timeWindow with
  | Millis ms => At (now - ms)
  | PlusInfinity => Never
  | MinusInfinity => Always
  | NotANumber => Always    (* no comparison with NaN holds *)
  end.

(** [const cutoffTime = timeWindow ? Date.now() - timeWindow : 0] *)
Definition cutoffTime (now : Z) (timeWindow : option TimeWindow) : Cutoff :=
  match timeWindow with
  | Some tw => if truthy timeWindow then minus now tw else At 0
  | None => At 0
  end.

(** [new Date(event.timestamp).getTime() > cutoffTime] *)
Definition laterThan (c : Cutoff) (t : Z) : bool :=
  match c with
  | At x => x <? t
  | Never => true
  | Always => false
  end.

Definition relevantEvents (now : Z) (timeWindow : option TimeWindow)
           (buf : list TelemetryEvent) : list TelemetryEvent :=
  filter (fun event => laterThan (cutoffTime now timeWindow) (timestamp event)) buf.

(** *** Grouping by provider: the object [acc] of the [reduce]

    The accumulator is an ordinary object created by [{}]: a lookup
    [acc[k]] that finds no own property continues in [Object.prototype].
    The members found there are functions, hence truthy and without a
    [push] method: the callback then throws a [TypeError].  (The accessor
    [__proto__] is not among them: the Deno runtime of the edge functions
    removes it.) *)

Definition Group : Type := string * list TelemetryEvent.

Definition inheritedKeys : list string :=
  [ "constructor"; "hasOwnProperty"; "isPrototypeOf"; "propertyIsEnumerable";
    "toLocaleString"; "toString"; "valueOf";
    "__defineGetter__"; "__defineSetter__";
    "__lookupGetter__"; "__lookupSetter__" ].

Definition inherited (k : string) : bool := existsb (String.eqb k) inheritedKeys.

(** [acc[k].push(event)] on the own property [k], created (with [[]]) when
    it is missing; own properties are kept in creation order. *)
Fixpoint pushInto (k : string) (event : TelemetryEvent) (acc : list Group)
  : list Group :=
  match acc with
  | [] => [(k, [event])]
  | (k', events) :: rest =>
      if String.eqb k k' then (k', events ++ [event]) :: rest
      else (k', events) :: pushInto k event rest
  end.

Definition notAFunction : JsError :=
  mkError "TypeError" "acc[event.provider].push is not a function".

Definition groupStep (acc : Result (list Group)) (event : TelemetryEvent)
  : Result (list Group) :=
  match acc with
  | Throw e => Throw e
  | Ok groups =>
      if inherited (provider event) then Throw notAFunction
      else Ok (pushInto (provider event) event groups)
  end.

Definition groupByProvider (events : list TelemetryEvent) : Result (list Group) :=
  fold_left groupStep events (Ok []).

(** *** [Object.entries]: array-index keys in ascending order, then the
    other keys in creation order. *)

Definition digitOf (c : ascii) : option N :=
  let n := N_of_ascii c in
  if ((48 <=? n) && (n <=? 57))%N then Some (n - 48)%N else None.

Fixpoint parseDigits (s : string) (acc : N) : option N :=
  match s with
  | EmptyString => Some acc
  | String c s' =>
      match digitOf c with
      | Some d => parseDigits s' (10 * acc + d)%N
      | None => None
      end
  end.

(** A canonical numeric string denoting an integer below [2^32 - 1]. *)
Definition arrayIndex (k : string) : option N :=
  match k with
  | EmptyString => None
  | String c rest =>
      if Ascii.eqb c "0" && Str.nonEmpty rest then None
      else match parseDigits k 0 with
           | Some n => if (n <=? 4294967294)%N then Some n else None
           | None => None
           end
  end.

Fixpoint insertIndexed (n : N) (g : Group) (l : list (N * Group))
  : list (N * Group) :=
  match l with
  | [] => [(n, g)]
  | (m, h) :: rest =>
      if (n <? m)%N then (n, g) :: l else (m, h) :: insertIndexed n g rest
  end.

Definition indexedEntries (groups : list Group) : list (N * Group) :=
  fold_right (fun g acc => match arrayIndex (fst g) with
                           | Some n => insertIndexed n g acc
                           | None => acc
                           end) [] groups.

Definition namedEntries (groups : list Group) : list Group :=
  filter (fun g => match arrayIndex (fst g) with
                   | Some _ => false
                   | None => true
                   end) groups.

Definition objectEntries (groups : list Group) : list Group :=
  map snd (indexedEntries groups) ++ namedEntries groups.

(** *** The statistics of one provider

    The source computes the quotients in IEEE double precision; here they
    are exact rationals.  [roundDiv a b] is [Math.round(a / b)], the
    integer nearest to [a / b], a half rounding up. *)

Definition roundDiv (a b : Z) : Z := (2 * a + b) / (2 * b).

Definition countStatus (st : Status) (events : list TelemetryEvent) : nat :=
  List.length (filter (fun e => Status_eqb (status e) st) events).

Definition statsOfGroup (g : Group) : ProviderStats :=
  let events := snd g in
  let total := List.length events in
  let successes := countStatus success events in
  let sumTimes := fold_left (fun sum e => sum + responseTimeMs e) events 0 in
  let sumTokens :=
    fold_left (fun sum e => sum + match tokenUsage e with
                                  | Some n => n
                                  | None => 0
                                  end) events 0 in
  mkStats (fst g)
          total
          successes
          (countStatus failure events)
          (countStatus fallback events)
          (countStatus retry events)
          (roundDiv sumTimes (Z.of_nat total))
          sumTokens
          (Qmake (if (0 <? total)%nat
                  then roundDiv (Z.of_nat successes * 10000) (Z.of_nat total)
                  else 0) 100).

(** Everything after the filter. *)
Definition statsOver (events : list TelemetryEvent) : Result (list ProviderStats) :=
  match groupByProvider events with
  | Throw e => Throw e
  | Ok groups => Ok (map statsOfGroup (objectEntries groups))
  end.

Definition getTelemetryStats (timeWindow : option TimeWindow) (w : World)
  : Result (list ProviderStats) :=
  statsOver (relevantEvents (clock w) timeWindow (telemetryBuffer w)).

End TelemetryStats.

(* ================================================================== *)
(** ** ai-client.ts *)

Module AIClient.
Import AiConfig Wire Telemetry.

Record RetryConfig := mkRetry {
  maxRetries : Z;
  baseDelayMs : Z;
  maxDelayMs : Z;
  backoffMultiplier : Z
}.

Definition DEFAULT_RETRY_CONFIG : RetryConfig := mkRetry 2 1000 8000 2.

(** The two fields of an [AIClient]; [clientFunction] is the
    [functionName] of its [AITelemetry]. *)
Record Client := mkClient {
  clientFunction : string;
  retryConfig : RetryConfig
}.

(** *** isRetryableError *)

Definition isRetryableError (error : JsError) : bool :=
  let message := Str.toLowerCase (message error) in
  if Str.includes message "429" || Str.includes message "rate limit" then true
  else if Str.includes message "502" || Str.includes message "503"
          || Str.includes message "504" then true
  else if Str.includes message "timeout" || Str.includes message "network" then true
  else if Str.includes message "connection" then true
  else if Str.includes message "401" || Str.includes message "403"
          || Str.includes message "unauthorized" then false
  else if Str.includes message "400" || Str.includes message "bad request" then false
  else if Str.includes message "404" || Str.includes message "not found" then false
  else false.

(** *** adaptRequestForProvider *)

Definition adaptRequestForProvider (request : AIRequest) (provider : AIProvider)
  : AIRequest :=
  if String.eqb (name provider) "OVH" then
    mkRequest (AiConfig.model provider) (messages request)
              (Z.min (max_tokens request) (maxTokens provider))
              (Wire.temperature request)
  else if String.eqb (name provider) "OpenAI" then
    mkRequest (AiConfig.model provider) (messages request)
              (Z.min (max_tokens request) (maxTokens provider))
              (Wire.temperature request)
  else
    mkRequest (AiConfig.model provider) (messages request)
              (maxTokens provider)
              (Wire.temperature request).

(** *** sleep and makeHttpRequest *)

(** [await this.sleep(ms)] *)
Definition sleep (ms : Z) (w : World) : World :=
  advance ms (perform (Slept ms) w).

Definition chatCall (provider : AIProvider) (request : AIRequest)
           (authHeader : string) : HttpCall :=
  mkCall "POST" (baseUrl provider ++ "/chat/completions")%string
         authHeader (Some request).

(** [await fetch(...)]: the call is recorded, the network decides its
    outcome, and the clock moves on by the time the call took. *)
Definition fetch (net : Network) (call : HttpCall) (w : World)
  : FetchOutcome * World :=
  let outcome := net (List.length (fetchesOf (trace w))) call in
  let elapsed := match outcome with
                 | Responds ms _ _ _ => ms
                 | Rejects ms _ => ms
                 end in
  (outcome, advance elapsed (perform (Fetched call) w)).

(** The body of the [try] block after the back-off: the request, the check
    of [response.ok] and the parsing of the body. *)
Definition attemptOnce (net : Network) (provider : AIProvider)
           (request : AIRequest) (authHeader : string) (w : World)
  : Result AIResponse * World :=
  let (outcome, w1) := fetch net (chatCall provider request authHeader) w in
  match outcome with
  | Rejects _ e => (Throw e, w1)
  | Responds _ status errorText json =>
      if negb (responseOk status) then
        (Throw (newError ("HTTP " ++ Str.ofZ status ++ ": " ++ errorText)%string), w1)
      else match json with
           | inl data => (Ok data, w1)
           | inr e => (Throw e, w1)
           end
  end.

(** *** makeRequest *)

(** [min(baseDelayMs * backoffMultiplier^(attempt - 1), maxDelayMs)] *)
Definition backoffDelay (cfg : RetryConfig) (attempt : Z) : Z :=
  Z.min (baseDelayMs cfg * Z.pow (backoffMultiplier cfg) (attempt - 1))
        (maxDelayMs cfg).

(** [lastError?.message || 'Unknown error'] *)
Definition messageOr (lastError : option JsError) : string :=
  match lastError with
  | Some e => if Str.nonEmpty (message e) then message e else "Unknown error"
  | None => "Unknown error"
  end.

(** [lastError || new Error('Unexpected error in retry logic')] *)
Definition errorOr (lastError : option JsError) : JsError :=
  match lastError with
  | Some e => e
  | None => newError "Unexpected error in retry logic"
  end.

Section MakeRequest.
Variable client : Client.
Variable net : Network.
Variable provider : AIProvider.
Variable request : AIRequest.
Variable authHeader : string.
Variable timer : PerformanceTimer.

Let cfg := retryConfig client.

(** The [for] loop.  [remaining] counts the iterations for which the
    condition [attempt <= maxRetries] still holds; when none is left the
    statements after the loop run. *)
Fixpoint attemptLoop (remaining : nat) (attempt : Z)
         (lastError : option JsError) (w : World) {struct remaining}
  : Result AIResponse * World :=
  match remaining with
  | O =>
      (Throw (errorOr lastError), timerFailure timer (messageOr lastError) w)
  | S remaining' =>
      let w1 := if 0 <? attempt
                then sleep (backoffDelay cfg attempt) (timerRetry timer attempt w)
                else w in
      match attemptOnce net provider request authHeader w1 with
      | (Ok data, w2) => (Ok data, timerSuccess timer (usage data) w2)
      | (Throw error, w2) =>
          if negb (isRetryableError error) || (attempt =? maxRetries cfg)
          then (Throw error, timerFailure timer (message error) w2)
          else attemptLoop remaining' (attempt + 1) (Some error) w2
      end
  end.

End MakeRequest.

Definition makeRequest (client : Client) (net : Network) (provider : AIProvider)
           (request : AIRequest) (authHeader : string) (w : World)
  : Result AIResponse * World :=
  let timer := newTimer (name provider) (clientFunction client) w in
  attemptLoop client net provider request authHeader timer
              (Z.to_nat (maxRetries (retryConfig client) + 1)) 0 None w.

(** *** makeRequestWithFallback *)

Record Used := mkUsed { response : AIResponse; usedProvider : AIProvider }.

(** The argument [getAuthHeader()] is evaluated before the call; when the
    thunk throws, no request is made. *)
Definition requestWith (client : Client) (net : Network) (provider : AIProvider)
           (request : AIRequest) (getAuthHeader : Result string) (w : World)
  : Result AIResponse * World :=
  match getAuthHeader with
  | Ok authHeader => makeRequest client net provider request authHeader w
  | Throw e => (Throw e, w)
  end.

Definition bothFailed (primaryProvider fallbackProvider : AIProvider)
           (primaryError fallbackError : JsError) : JsError :=
  newError ("Both AI providers failed. Primary (" ++ name primaryProvider ++ "): "
            ++ message primaryError ++ ". "
            ++ "Fallback (" ++ name fallbackProvider ++ "): "
            ++ message fallbackError)%string.

Definition makeRequestWithFallback (client : Client) (net : Network)
           (primaryProvider fallbackProvider : AIProvider) (request : AIRequest)
           (getPrimaryAuthHeader getFallbackAuthHeader : Result string)
           (w : World)
  : Result Used * World :=
  match requestWith client net primaryProvider request getPrimaryAuthHeader w with
  | (Ok response, w1) => (Ok (mkUsed response primaryProvider), w1)
  | (Throw primaryError, w1) =>
      let primaryTimer := newTimer (name primaryProvider) (clientFunction client) w1 in
      let w2 := timerFallback primaryTimer (message primaryError) w1 in
      let fallbackRequest := adaptRequestForProvider request fallbackProvider in
      match requestWith client net fallbackProvider fallbackRequest
                        getFallbackAuthHeader w2 with
      | (Ok response, w3) => (Ok (mkUsed response fallbackProvider), w3)
      | (Throw fallbackError, w3) =>
          (Throw (bothFailed primaryProvider fallbackProvider
                             primaryError fallbackError), w3)
      end
  end.

End AIClient.

(* ================================================================== *)
(** ** ai-config.ts : checkProviderHealth *)

Module ProviderHealth.
Import AiConfig Wire Telemetry AIClient.

(** The request of [checkProviderHealth]. *)
Definition modelsCall (p : AIProvider) (authHeader : string) : HttpCall :=
  mkCall "GET" (baseUrl p ++ "/models")%string authHeader None.

(** [checkProviderHealth]: every exception, that of [getAuthHeader]
    included, is caught and answered with [false]. *)
Definition checkProviderHealth (env : Env) (net : Network) (p : AIProvider)
           (w : World) : bool * World :=
  match getAuthHeader env p with
  | inr _ => (false, w)
  | inl authHeader =>
      match fetch net (modelsCall p authHeader) w with
      | (Responds _ status _ _, w1) => (status =? 200, w1)
      | (Rejects _ _, w1) => (false, w1)
      end
  end.

End ProviderHealth.

(* ================================================================== *)
(** ** health-check.ts *)

Module HealthCheck.
Import AiConfig Wire Telemetry.

Record HealthCheckResult := mkHealth {
  provider : string;
  isHealthy : bool;
  responseTimeMs : Z;
  error : option string;
  timestamp : Z
}.

Inductive Overall := healthy | degraded | unhealthy.

(** [private readonly timeout = 5000] *)
Definition timeout : Z := 5000.

Definition abortError : JsError := mkError "AbortError" "The signal has been aborted".

(** A [fetch] guarded by the [AbortController]: a call that has not
    settled when the timer fires is aborted. *)
Definition fetchWithTimeout (net : Network) (call : HttpCall) (w : World)
  : FetchOutcome * World :=
  let outcome := net (List.length (fetchesOf (trace w))) call in
  let elapsed := match outcome with
                 | Responds ms _ _ _ => ms
                 | Rejects ms _ => ms
                 end in
  if timeout <=? elapsed
  then (Rejects timeout abortError, advance timeout (perform (Fetched call) w))
  else (outcome, advance elapsed (perform (Fetched call) w)).

(** The [switch] on the provider name: the request to issue, or the error
    thrown while building it. *)
Definition probeCall (env : Env) (p : AIProvider) : Result HttpCall :=
  if String.eqb (name p) "OpenAI" || String.eqb (name p) "OVH" then
    match getAuthHeader env p with
    | inl h => Ok (mkCall "GET" (baseUrl p ++ "/models")%string h None)
    | inr msg => Throw (newError msg)
    end
  else if String.eqb (name p) "OVH_SDXL" then
    match getAuthHeader env p with
    | inl h => Ok (mkCall "GET" (baseUrl p) h None)
    | inr msg => Throw (newError msg)
    end
  else Throw (newError ("Unknown provider type: " ++ name p)%string).

(** The [catch] of [performProviderHealthCheck]. *)
Definition rethrow (e : JsError) : JsError :=
  if String.eqb (errorName e) "AbortError"
  then newError ("Health check timeout after " ++ Str.ofZ timeout ++ "ms")%string
  else e.

Definition performProviderHealthCheck (env : Env) (net : Network)
           (p : AIProvider) (w : World) : Result bool * World :=
  match probeCall env p with
  | Throw e => (Throw (rethrow e), w)
  | Ok call =>
      match fetchWithTimeout net call w with
      | (Rejects _ e, w1) => (Throw (rethrow e), w1)
      | (Responds _ status _ _, w1) =>
          (Ok ((status <? 500) && negb (status =? 401) && negb (status =? 403)), w1)
      end
  end.

Definition checkProvider (env : Env) (net : Network) (p : AIProvider) (w : World)
  : HealthCheckResult * World :=
  let startTime := clock w in
  if negb (checkProviderAvailability env p) then
    (mkHealth (name p) false 0 (Some "API key not configured or invalid") (clock w),
     logProviderHealth (name p) false 0 w)
  else
    match performProviderHealthCheck env net p w with
    | (Ok isHealthy, w1) =>
        let responseTime := clock w1 - startTime in
        (mkHealth (name p) isHealthy responseTime None (clock w1),
         logProviderHealth (name p) isHealthy responseTime w1)
    | (Throw e, w1) =>
        let responseTime := clock w1 - startTime in
        (mkHealth (name p) false responseTime (Some (message e)) (clock w1),
         logProviderHealth (name p) false responseTime w1)
    end.

(** The classification computed by [performStartupHealthCheck] from the
    results of all the probes. *)
Definition overall (allResults : list HealthCheckResult) : Overall :=
  let healthyCount := List.length (filter isHealthy allResults) in
  let totalCount := List.length allResults in
  if (healthyCount =? totalCount)%nat then healthy
  else if (0 <? healthyCount)%nat then degraded
  else unhealthy.

End HealthCheck.

(* ================================================================== *)
(** ** The vocabulary of the specification *)

Module Terms.
Import AiConfig Wire Telemetry AIClient.

(** The signals that the specification lists as retryable. *)
Definition retryableSignals : list string :=
  [ "429"; "rate limit"; "502"; "503"; "504"; "timeout"; "network"; "connection" ].

(** The signals that the specification lists as fatal. *)
Definition fatalSignals : list string :=
  [ "401"; "403"; "unauthorized"; "400"; "bad request"; "404"; "not found" ].

(** The lowercased message of the error contains the signal. *)
Definition mentions (error : JsError) (signal : string) : bool :=
  Str.includes (Str.toLowerCase (message error)) signal.

(** The providers for which [adaptRequestForProvider] takes the minimum. *)
Definition clamps (p : AIProvider) : bool :=
  String.eqb (name p) "OVH" || String.eqb (name p) "OpenAI".

(** The last [n] elements of a list. *)
Definition lastN {A : Type} (n : nat) (l : list A) : list A :=
  skipn (List.length l - n) l.

(** One call of [AITelemetry.log]: the time at which it happens, the
    [functionName] of the instance and the argument. *)
Record LogCall := mkLogCall {
  atTime : Z;
  byFunction : string;
  input : EventInput
}.

Definition recorded (c : LogCall) : TelemetryEvent :=
  stamp (atTime c) (byFunction c) (input c).

Definition runLog (c : LogCall) (w : World) : World :=
  log (byFunction c) (input c) (mkWorld (telemetryBuffer w) (atTime c) (trace w)).

Definition runLogs (calls : list LogCall) (w : World) : World :=
  fold_left (fun w c => runLog c w) calls w.

(** The effects that reach the network or the timer. *)
Definition isWire (e : Effect) : bool :=
  match e with
  | Fetched _ | Slept _ => true
  | Printed _ | HealthPrinted _ _ _ _ => false
  end.

(** What the [k]-th retry adds to the trace: its telemetry event, the
    back-off, and the request. *)
Definition retryBlock (cfg : RetryConfig) (call : HttpCall)
           (retry : nat * TelemetryEvent) : list Effect :=
  [ Printed (snd retry);
    Slept (backoffDelay cfg (Z.of_nat (fst retry)));
    Fetched call ].

(** The effects of the back-off that opens iteration [a] of the loop:
    none for the first iteration, a retry event and a sleep otherwise. *)
Definition opening (cfg : RetryConfig) (a : nat) (pre : list Effect) : Prop :=
  match a with
  | O => pre = []
  | S _ => exists ev, status ev = retry
                      /\ pre = [Printed ev; Slept (backoffDelay cfg (Z.of_nat a))]
  end.

(** The world in which the fallback provider is tried: the world left by
    the failed primary, after the [fallback] event of the primary. *)
Definition fallbackEntry (client : Client) (primaryProvider : AIProvider)
           (primaryError : JsError) (w1 : World) : World :=
  timerFallback (newTimer (name primaryProvider) (clientFunction client) w1)
                (message primaryError) w1.

(** The number of events held by the groups of the [reduce]. *)
Definition groupedEvents (groups : list TelemetryStats.Group) : nat :=
  list_sum (map (fun g => List.length (snd g)) groups).

(** The number of events that a list of statistics accounts for. *)
Definition eventsCounted (stats : list TelemetryStats.ProviderStats) : nat :=
  list_sum (map TelemetryStats.totalRequests stats).

(** The environment variable that holds the credential of a provider. *)
Definition credentialOf (env : Env) (p : AIProvider) : option string :=
  if String.eqb (name p) "OpenAI" then env "OPENAI_API_KEY"
  else if String.eqb (name p) "OVH" || String.eqb (name p) "OVH_SDXL"
       then env "OVH_AI_ENDPOINTS_ACCESS_TOKEN"
       else None.

(** The events of a list that belong to a provider, in their order. *)
Definition eventsOf (k : string) (events : list TelemetryEvent) : list TelemetryEvent :=
  filter (fun event => String.eqb (provider event) k) events.

(** The groups are those of the events: one group per provider that occurs,
    holding the events of that provider in their order. *)
Definition grouped (groups : list TelemetryStats.Group)
           (events : list TelemetryEvent) : Prop :=
  NoDup (map fst groups)
  /\ (forall g, In g groups -> snd g = eventsOf (fst g) events /\ snd g <> [])
  /\ (forall event, In event events -> In (provider event) (map fst groups)).

(** The tokens reported by a list of events, a missing report counting 0. *)
Definition tokensOf (events : list TelemetryEvent) : Z :=
  fold_right (fun event sum => match tokenUsage event with
                               | Some n => n
                               | None => 0
                               end + sum) 0 events.

(** The tokens held by the groups of the [reduce]. *)
Definition groupedTokens (groups : list TelemetryStats.Group) : Z :=
  fold_right (fun g sum => tokensOf (snd g) + sum) 0 groups.

(** The buffer after the events have been logged one after the other. *)
Definition pushAll (events : list TelemetryEvent) (buf : list TelemetryEvent)
  : list TelemetryEvent :=
  fold_left (fun b event => pushRotate event b) events buf.

(** The error with which an attempt fails on a given answer of the network,
    if it fails. *)
Definition outcomeError (outcome : FetchOutcome) : option JsError :=
  match outcome with
  | Rejects _ e => Some e
  | Responds _ status text json =>
      if negb (responseOk status)
      then Some (newError ("HTTP " ++ Str.ofZ status ++ ": " ++ text)%string)
      else match json with
           | inl _ => None
           | inr e => Some e
           end
  end.

(** The event is one of the timer: it carries the provider and the function
    name of the timer, and a response time measured from its start. *)
Definition timed (timer : PerformanceTimer) (event : TelemetryEvent) : Prop :=
  provider event = timerProvider timer
  /\ functionName event = timerFunction timer
  /\ responseTimeMs event = timestamp event - startTime timer.

(** The world [w'] is reached from [w] by the effects [rest]: every printed
    event satisfies [P] and has been pushed into the buffer, and every
    request is the call [call]. *)
Definition reaches (P : TelemetryEvent -> Prop) (call : HttpCall)
           (w w' : World) (rest : list Effect) : Prop :=
  trace w' = trace w ++ rest
  /\ telemetryBuffer w' = pushAll (printedOf rest) (telemetryBuffer w)
  /\ Forall P (printedOf rest)
  /\ Forall (eq call) (fetchesOf rest).

(** The events of status [fallback]. *)
Definition fallbackEvents (events : list TelemetryEvent) : list TelemetryEvent :=
  filter (fun event => Status_eqb (status event) fallback) events.

(** The event that [makeRequestWithFallback] records for a failed primary. *)
Definition fallbackEvent (client : Client) (primaryProvider : AIProvider)
           (primaryError : JsError) (w1 : World) : TelemetryEvent :=
  stamp (clock w1) (clientFunction client)
        (mkInput (name primaryProvider) fallback 0 None
                 (Some (message primaryError)) None None).

(** The time that a call of [fetch] takes. *)
Definition elapsedOf (outcome : FetchOutcome) : Z :=
  match outcome with
  | Responds ms _ _ _ => ms
  | Rejects ms _ => ms
  end.

(** The providers with a known authorization scheme. *)
Definition known (p : AIProvider) : bool :=
  String.eqb (name p) "OpenAI" || String.eqb (name p) "OVH"
  || String.eqb (name p) "OVH_SDXL".

End Terms.

(* ================================================================== *)
(** ** Concrete inputs *)

Module Scenario.
Import AiConfig Wire Telemetry AIClient Terms.

Definition shortRequest : AIRequest :=
  mkRequest "gpt-4o" [mkMessage user "Once upon a time"] 100 (7 # 10).

Definition otherProvider : AIProvider :=
  mkProvider "Mistral" "https://api.mistral.example/v1" "mistral-small" 400 (7 # 10).

Definition emptyWorld : World := mkWorld [] 1700000000000 [].

Definition successInput (n : nat) : EventInput :=
  mkInput "OpenAI" success (Z.of_nat n) (Some 42) None None None.

(** [n] calls of [log], one per millisecond. *)
Definition burst (n : nat) : list LogCall :=
  map (fun i => mkLogCall (1700000000000 + Z.of_nat i) "generate-story" (successInput i))
      (seq 0 n).

Definition storyClient : Client := mkClient "generate-story" DEFAULT_RETRY_CONFIG.

Definition story : AIResponse := mkResponse ["The dragon smiled."] (Some 57).

(** Every request is answered with 503. *)
Definition unavailable : Network :=
  fun _ _ => Responds 120 503 "Service Unavailable" (inr (mkError "SyntaxError" "Unexpected token S")).

(** Every request is answered with 401. *)
Definition unauthorized : Network :=
  fun _ _ => Responds 80 401 "Unauthorized" (inr (mkError "SyntaxError" "Unexpected token U")).

(** The primary text provider times out; every other endpoint answers. *)
Definition primaryDown : Network :=
  fun _ call =>
    if String.eqb (url call) (baseUrl textPrimary ++ "/chat/completions")%string
    then Rejects 30000 (mkError "TypeError" "request timeout")
    else Responds 900 200 "{}" (inl story).

(** No credential is configured. *)
Definition noKeys : Env := fun _ => None.

(** The template value is still in place for OpenAI. *)
Definition placeholderKeys : Env :=
  fun k => if String.eqb k "OPENAI_API_KEY" then Some "sk-placeholder-key" else None.

(** One event in the buffer, recorded five seconds ago. *)
Definition oneEventWorld : World := advance 5000 (runLogs (burst 1) emptyWorld).

(** Both credentials are configured. *)
Definition liveKeys : Env :=
  fun k => if String.eqb k "OPENAI_API_KEY" then Some "sk-live-1234"
           else if String.eqb k "OVH_AI_ENDPOINTS_ACCESS_TOKEN" then Some "ovh-live-5678"
           else None.

(** Only the OVH token is configured; the OpenAI key is the template value. *)
Definition ovhOnlyKeys : Env :=
  fun k => if String.eqb k "OPENAI_API_KEY" then Some "sk-placeholder-key"
           else if String.eqb k "OVH_AI_ENDPOINTS_ACCESS_TOKEN" then Some "ovh-live-5678"
           else None.

(** A configuration that allows no attempt at all. *)
Definition noAttemptClient : Client :=
  mkClient "generate-story" (mkRetry (-1) 1000 8000 2).

(** The provider answers the third request. *)
Definition recovering : Network :=
  fun n _ => if (n <? 2)%nat
             then Responds 120 503 "Service Unavailable"
                           (inr (mkError "SyntaxError" "Unexpected token S"))
             else Responds 900 200 "{}" (inl story).

(** Every endpoint answers 404 after 150 milliseconds. *)
Definition notFound : Network :=
  fun _ _ => Responds 150 404 "Not Found" (inr (mkError "SyntaxError" "Unexpected token N")).

(** Every endpoint answers after six seconds. *)
Definition slow : Network :=
  fun _ _ => Responds 6000 200 "{}" (inl story).

End Scenario.

(* ================================================================== *)
(** * Properties *)

(** ** Substring search *)

Module StrFacts.
Import Str.

Lemma startsWith_iff (s p : string) :
  startsWith s p = true <-> exists rest, s = (p ++ rest)%string.
Proof.
  revert s; induction p as [|a p IH]; intros s.
  - split; [intros _; now exists s | now destruct s].
  - destruct s as [|b s]; simpl.
    + split; [discriminate | intros [rest H]; discriminate].
    + rewrite andb_true_iff, Ascii.eqb_eq, IH. split.
      * intros [-> [rest ->]]. now exists rest.
      * intros [rest H]. injection H as -> ->. split; [reflexivity | now exists rest].
Qed.

Lemma includes_unfold (s needle : string) :
  includes s needle =
  startsWith s needle ||
  match s with
  | EmptyString => false
  | String _ s' => includes s' needle
  end.
Proof. destruct s; reflexivity. Qed.

(** [includes] finds exactly the needles that occur as a contiguous part. *)
Lemma includes_iff (s needle : string) :
  includes s needle = true <->
  exists before rest, s = (before ++ needle ++ rest)%string.
Proof.
  induction s as [|c s IH]; rewrite includes_unfold, orb_true_iff, startsWith_iff.
  - split.
    + intros [[rest H] | H]; [now exists EmptyString, rest | discriminate].
    + intros [[|b before] [rest H]]; [left; now exists rest | discriminate].
  - rewrite IH. split.
    + intros [[rest H] | [before [rest H]]].
      * now exists EmptyString, rest.
      * exists (String c before), rest. simpl. now rewrite H.
    + intros [[|b before] [rest H]].
      * left. now exists rest.
      * right. simpl in H. injection H as _ H. now exists before, rest.
Qed.

Lemma includes_middle (before needle rest : string) :
  includes (before ++ needle ++ rest) needle = true.
Proof. apply includes_iff. now exists before, rest. Qed.

Lemma append_assoc (a b c : string) :
  ((a ++ b) ++ c = a ++ (b ++ c))%string.
Proof. induction a as [|x a IH]; simpl; [reflexivity | now rewrite IH]. Qed.

Lemma append_nil_r (a : string) : (a ++ "" = a)%string.
Proof. induction a as [|x a IH]; simpl; [reflexivity | now rewrite IH]. Qed.

End StrFacts.

(* ================================================================== *)
(** ** The error classifier and the request adapter *)

Module ClassifierProps.
Import AiConfig Wire AIClient Terms Scenario.

Lemma isRetryableError_existsb (error : JsError) :
  isRetryableError error = existsb (mentions error) retryableSignals.
Proof.
  unfold isRetryableError, mentions, retryableSignals; cbn [existsb].
  repeat match goal with
         | |- context [Str.includes ?m ?s] => destruct (Str.includes m s); simpl
         end; reflexivity.
Qed.

(** C6.  An error is classified retryable exactly when its lowercased
    message contains one of 429, rate limit, 502, 503, 504, timeout,
    network, connection; an error that contains none of them is fatal,
    whether or not it contains one of the listed fatal signals. *)
Theorem isRetryableError_classification (error : JsError) :
  (isRetryableError error = true <->
   exists signal, In signal retryableSignals /\ mentions error signal = true)
  /\
  ((forall signal, In signal retryableSignals -> mentions error signal = false) ->
   isRetryableError error = false).
Proof.
  rewrite isRetryableError_existsb. split.
  - apply existsb_exists.
  - intros H. destruct (existsb _ _) eqn:E; [|reflexivity].
    apply existsb_exists in E as [signal [Hin Hm]].
    rewrite (H _ Hin) in Hm. discriminate.
Qed.

Lemma isRetryableError_classification_witness :
  isRetryableError (newError "HTTP 503: Service Unavailable") = true
  /\ isRetryableError (newError "HTTP 401: Unauthorized") = false.
Proof.
  split.
  - apply (proj1 (isRetryableError_classification
                    (newError "HTTP 503: Service Unavailable"))).
    exists "503". split; [simpl; tauto | reflexivity].
  - apply (proj2 (isRetryableError_classification
                    (newError "HTTP 401: Unauthorized"))).
    intros signal Hin. simpl in Hin.
    repeat (destruct Hin as [<- | Hin]; [reflexivity|]). destruct Hin.
Defined.

(** Each of the fatal signals of the specification, on its own, is
    classified fatal. *)
Example fatal_signals_not_retried :
  forallb (fun signal => negb (isRetryableError (newError signal))) fatalSignals = true.
Proof. reflexivity. Qed.

(** A message that carries a fatal signal next to a retryable one is
    retried: the retryable signals are looked for first. *)
Example fatal_signal_overridden :
  isRetryableError (newError "HTTP 401: upstream timeout") = true.
Proof. reflexivity. Qed.

(** C2, as the code has it.  The adapted payload has the model of the
    provider; its [max_tokens] is the minimum of the requested value and
    the provider's limit when the provider is named OVH or OpenAI, and the
    provider's limit itself for every other provider. *)
Theorem adaptRequestForProvider_model_tokens (request : AIRequest) (p : AIProvider) :
  Wire.model (adaptRequestForProvider request p) = AiConfig.model p
  /\ (clamps p = true ->
      max_tokens (adaptRequestForProvider request p)
      = Z.min (max_tokens request) (maxTokens p))
  /\ (clamps p = false ->
      max_tokens (adaptRequestForProvider request p) = maxTokens p).
Proof.
  unfold clamps, adaptRequestForProvider.
  destruct (String.eqb (name p) "OVH"), (String.eqb (name p) "OpenAI");
    simpl; repeat split; intros; try reflexivity; discriminate.
Qed.

Lemma adaptRequestForProvider_model_tokens_witness :
  max_tokens (adaptRequestForProvider shortRequest textFallback) = 100
  /\ max_tokens (adaptRequestForProvider shortRequest otherProvider) = 400.
Proof.
  split.
  - apply (proj1 (proj2 (adaptRequestForProvider_model_tokens
                           shortRequest textFallback))). reflexivity.
  - apply (proj2 (proj2 (adaptRequestForProvider_model_tokens
                           shortRequest otherProvider))). reflexivity.
Defined.

(** For a provider with another name the requested value is not kept even
    when it is below the provider's limit. *)
Lemma adaptRequestForProvider_not_clamped :
  ~ (Wire.model (adaptRequestForProvider shortRequest otherProvider)
     = AiConfig.model otherProvider
     /\ max_tokens (adaptRequestForProvider shortRequest otherProvider)
        = Z.min (max_tokens shortRequest) (maxTokens otherProvider)).
Proof. intros [_ H]. vm_compute in H. discriminate. Qed.

(** C10.  Adapting a request leaves its messages and its temperature as
    they are. *)
Theorem adaptRequestForProvider_frame (request : AIRequest) (p : AIProvider) :
  messages (adaptRequestForProvider request p) = messages request
  /\ Wire.temperature (adaptRequestForProvider request p) = Wire.temperature request.
Proof.
  unfold adaptRequestForProvider.
  destruct (String.eqb (name p) "OVH"), (String.eqb (name p) "OpenAI");
    split; reflexivity.
Qed.

End ClassifierProps.

(* ================================================================== *)
(** ** The telemetry buffer *)

Module BufferProps.
Import Wire Telemetry Terms Scenario.

Lemma tl_skipn {A : Type} (k : nat) (l : list A) :
  tl (skipn k l) = skipn (S k) l.
Proof.
  revert l; induction k as [|k IH]; intros [|x l]; try reflexivity.
  apply (IH l).
Qed.

Lemma lastN_length {A : Type} (n : nat) (l : list A) :
  List.length (lastN n l) = Nat.min n (List.length l).
Proof. unfold lastN. rewrite length_skipn. lia. Qed.

Lemma lastN_all {A : Type} (n : nat) (l : list A) :
  (List.length l <= n)%nat -> lastN n l = l.
Proof.
  intros H. unfold lastN. replace (List.length l - n)%nat with 0%nat by lia.
  reflexivity.
Qed.

(** Pushing into the window of the last [MAX_BUFFER_SIZE] elements yields
    the window of the extended sequence. *)
Lemma pushRotate_lastN (e : TelemetryEvent) (l : list TelemetryEvent) :
  pushRotate e (lastN MAX_BUFFER_SIZE l) = lastN MAX_BUFFER_SIZE (l ++ [e]).
Proof.
  pose proof (eq_refl : MAX_BUFFER_SIZE = 1000%nat) as HM.
  unfold pushRotate.
  rewrite length_app, lastN_length. cbn [List.length].
  destruct (Nat.ltb_spec MAX_BUFFER_SIZE
                         (Nat.min MAX_BUFFER_SIZE (List.length l) + 1)) as [Hlt|Hle].
  - unfold lastN. rewrite length_app. cbn [List.length].
    assert (Hk : (MAX_BUFFER_SIZE <= List.length l)%nat) by lia.
    replace (List.length l + 1 - MAX_BUFFER_SIZE)%nat
      with (S (List.length l - MAX_BUFFER_SIZE)) by lia.
    rewrite skipn_app.
    replace (S (List.length l - MAX_BUFFER_SIZE) - List.length l)%nat with 0%nat by lia.
    change (skipn 0 [e]) with [e]. rewrite <- tl_skipn.
    destruct (skipn (List.length l - MAX_BUFFER_SIZE) l) eqn:E; [|reflexivity].
    apply (f_equal (@List.length _)) in E. rewrite length_skipn in E.
    cbn [List.length] in E. lia.
  - assert (Hk : (List.length l < MAX_BUFFER_SIZE)%nat) by lia.
    rewrite !lastN_all; [reflexivity | rewrite length_app; cbn [List.length]; lia | lia].
Qed.

Lemma runLog_buffer (c : LogCall) (w : World) :
  telemetryBuffer (runLog c w) = pushRotate (recorded c) (telemetryBuffer w).
Proof. reflexivity. Qed.

Lemma runLogs_buffer (calls : list LogCall) (w : World) (history : list TelemetryEvent) :
  telemetryBuffer w = lastN MAX_BUFFER_SIZE history ->
  telemetryBuffer (runLogs calls w)
  = lastN MAX_BUFFER_SIZE (history ++ map recorded calls).
Proof.
  revert w history. induction calls as [|c calls IH]; intros w history H; simpl.
  - now rewrite app_nil_r.
  - rewrite (IH (runLog c w) (history ++ [recorded c])).
    + now rewrite <- app_assoc.
    + rewrite runLog_buffer, H. apply pushRotate_lastN.
Qed.

(** C7.  Starting from a buffer within its capacity, after any sequence
    of [log] calls the buffer holds at most [MAX_BUFFER_SIZE] = 1000 events,
    namely the newest ones in the order of their insertion; a [log] into a
    full buffer drops exactly its oldest event; and after 1001 insertions
    the buffer consists of the insertions 2 to 1001, in order. *)
Theorem log_bounded_fifo (calls : list LogCall) (w : World) :
  (List.length (telemetryBuffer w) <= MAX_BUFFER_SIZE)%nat ->
  MAX_BUFFER_SIZE = 1000%nat
  /\ (List.length (telemetryBuffer (runLogs calls w)) <= MAX_BUFFER_SIZE)%nat
  /\ telemetryBuffer (runLogs calls w)
     = lastN MAX_BUFFER_SIZE (telemetryBuffer w ++ map recorded calls)
  /\ (forall c, List.length (telemetryBuffer w) = MAX_BUFFER_SIZE ->
                telemetryBuffer (runLog c w) = tl (telemetryBuffer w) ++ [recorded c])
  /\ (List.length calls = S MAX_BUFFER_SIZE ->
      telemetryBuffer (runLogs calls w) = tl (map recorded calls)).
Proof.
  intros Hw.
  assert (Hrun : telemetryBuffer (runLogs calls w)
                 = lastN MAX_BUFFER_SIZE (telemetryBuffer w ++ map recorded calls)).
  { apply runLogs_buffer. now rewrite lastN_all. }
  split; [reflexivity|]. split; [|split; [exact Hrun|split]].
  - rewrite Hrun, lastN_length. lia.
  - intros c Hfull. rewrite runLog_buffer. unfold pushRotate.
    rewrite length_app, Hfull. cbn [List.length].
    destruct (Nat.ltb_spec MAX_BUFFER_SIZE (MAX_BUFFER_SIZE + 1)) as [_|Hle]; [|lia].
    destruct (telemetryBuffer w); [discriminate Hfull | reflexivity].
  - intros Hlen. rewrite Hrun. unfold lastN.
    rewrite length_app, length_map, Hlen.
    replace (List.length (telemetryBuffer w) + S MAX_BUFFER_SIZE - MAX_BUFFER_SIZE)%nat
      with (List.length (telemetryBuffer w) + 1)%nat by lia.
    rewrite skipn_app, skipn_all2 by lia.
    replace (List.length (telemetryBuffer w) + 1 - List.length (telemetryBuffer w))%nat
      with 1%nat by lia.
    reflexivity.
Qed.

Lemma log_bounded_fifo_witness :
  telemetryBuffer (runLogs (burst 1001) emptyWorld)
  = tl (map recorded (burst 1001)).
Proof.
  apply (log_bounded_fifo (burst 1001) emptyWorld).
  - simpl. unfold MAX_BUFFER_SIZE. lia.
  - vm_compute. reflexivity.
Defined.

End BufferProps.

(* ================================================================== *)
(** ** The retry loop *)

Module RetryProps.
Import AiConfig Wire Telemetry AIClient Terms Scenario.

Lemma fetchesOf_app (a b : list Effect) :
  fetchesOf (a ++ b) = fetchesOf a ++ fetchesOf b.
Proof. apply flat_map_app. Qed.

Lemma sleepsOf_app (a b : list Effect) :
  sleepsOf (a ++ b) = sleepsOf a ++ sleepsOf b.
Proof. apply flat_map_app. Qed.

Lemma printedOf_app (a b : list Effect) :
  printedOf (a ++ b) = printedOf a ++ printedOf b.
Proof. apply flat_map_app. Qed.

Lemma timerLog_trace t st tokens err w :
  trace (timerLog t st tokens err w)
  = trace w ++ [Printed (stamp (clock w) (timerFunction t)
                               (mkInput (timerProvider t) st (clock w - startTime t)
                                        tokens err None None))].
Proof. reflexivity. Qed.

Lemma timerLog_buffer t st tokens err w :
  telemetryBuffer (timerLog t st tokens err w)
  = pushRotate (stamp (clock w) (timerFunction t)
                      (mkInput (timerProvider t) st (clock w - startTime t)
                               tokens err None None))
               (telemetryBuffer w).
Proof. reflexivity. Qed.

Lemma sleep_trace ms w : trace (sleep ms w) = trace w ++ [Slept ms].
Proof. reflexivity. Qed.

Lemma attemptOnce_trace net p request authHeader w :
  trace (snd (attemptOnce net p request authHeader w))
  = trace w ++ [Fetched (chatCall p request authHeader)].
Proof.
  unfold attemptOnce, fetch.
  destruct (net _ _) as [ms status text [data|e]|ms e];
    [destruct (negb (responseOk status)) .. |]; reflexivity.
Qed.

Lemma attemptOnce_buffer net p request authHeader w :
  telemetryBuffer (snd (attemptOnce net p request authHeader w)) = telemetryBuffer w.
Proof.
  unfold attemptOnce, fetch.
  destruct (net _ _) as [ms status text [data|e]|ms e];
    [destruct (negb (responseOk status)) .. |]; reflexivity.
Qed.

Section Loop.
Variable client : Client.
Variable net : Network.
Variable provider : AIProvider.
Variable request : AIRequest.
Variable authHeader : string.
Variable timer : PerformanceTimer.

Let cfg := retryConfig client.
Let call := chatCall provider request authHeader.
Let loop := attemptLoop client net provider request authHeader timer.

(** One iteration of the loop. *)
Lemma attemptLoop_S (r : nat) (attempt : Z) (lastError : option JsError) (w : World) :
  loop (S r) attempt lastError w
  = match attemptOnce net provider request authHeader
            (if 0 <? attempt
             then sleep (backoffDelay cfg attempt) (timerRetry timer attempt w)
             else w) with
    | (Ok data, w2) => (Ok data, timerSuccess timer (usage data) w2)
    | (Throw error, w2) =>
        if negb (isRetryableError error) || (attempt =? maxRetries cfg)
        then (Throw error, timerFailure timer (message error) w2)
        else loop r (attempt + 1) (Some error) w2
    end.
Proof. reflexivity. Qed.

(** The world in which the request of iteration [a] is issued. *)
Lemma backoff_opening (a : nat) (w : World) :
  exists pre,
    opening cfg a pre
    /\ trace (if 0 <? Z.of_nat a
              then sleep (backoffDelay cfg (Z.of_nat a))
                         (timerRetry timer (Z.of_nat a) w)
              else w)
       = trace w ++ pre.
Proof.
  destruct a as [|a].
  - exists []. split; [reflexivity | now rewrite app_nil_r].
  - destruct (Z.ltb_spec 0 (Z.of_nat (S a))) as [_|Hle]; [|lia].
    eexists. split.
    2: { rewrite sleep_trace. unfold timerRetry.
         rewrite timerLog_trace, <- app_assoc. reflexivity. }
    eexists. split; [|reflexivity]. reflexivity.
Qed.

Ltac finish_shape pre Hopen Hfetch Htrace :=
  eexists pre, [], _;
  split; [exact Hopen|];
  split; [simpl; lia|];
  split; [constructor|];
  split;
  [ | cbn [snd]; unfold timerSuccess, timerFailure;
      rewrite timerLog_trace, Hfetch, Htrace;
      cbn [flat_map combine List.length seq]; rewrite <- !app_assoc;
      reflexivity ];
  cbn [status stamp in_status]; discriminate.

(** The shape of the trace of the loop, entered at iteration [a] with
    [r] further iterations allowed after it: an opening back-off, the
    request, a block per retry, and the event of the final outcome. *)
Lemma attemptLoop_shape (r : nat) :
  forall (a : nat) (lastError : option JsError) (w : World),
    Z.of_nat a + Z.of_nat r = maxRetries cfg ->
    exists (pre : list Effect) (evs : list TelemetryEvent) (final : TelemetryEvent),
      opening cfg a pre
      /\ (List.length evs <= r)%nat
      /\ Forall (fun ev => status ev = retry) evs
      /\ status final <> retry
      /\ trace (snd (loop (S r) (Z.of_nat a) lastError w))
         = trace w ++ pre ++ Fetched call
             :: flat_map (retryBlock cfg call)
                         (combine (seq (S a) (List.length evs)) evs)
             ++ [Printed final].
Proof.
  induction r as [|r IH]; intros a lastError w Hbound;
    destruct (backoff_opening a w) as [pre [Hopen Htrace]];
    rewrite attemptLoop_S;
    match type of Htrace with
    | trace ?w1 = _ =>
        pose proof (attemptOnce_trace net provider request authHeader w1) as Hfetch;
        destruct (attemptOnce net provider request authHeader w1)
          as [[data|error] w2]; cbn [snd] in Hfetch
    end.
  - finish_shape pre Hopen Hfetch Htrace.
  - (* the last iteration: [attempt = maxRetries] *)
    replace (Z.of_nat a =? maxRetries cfg) with true
      by (symmetry; apply Z.eqb_eq; lia).
    rewrite orb_true_r.
    finish_shape pre Hopen Hfetch Htrace.
  - finish_shape pre Hopen Hfetch Htrace.
  - destruct (negb (isRetryableError error) || (Z.of_nat a =? maxRetries cfg)).
    + finish_shape pre Hopen Hfetch Htrace.
    + replace (Z.of_nat a + 1) with (Z.of_nat (S a)) by lia.
      destruct (IH (S a) (Some error) w2 ltac:(lia))
        as [pre' [evs [final [Hopen' [Hlen [Hretry [Hfinal Hshape]]]]]]].
      destruct Hopen' as [ev [Hev ->]].
      exists pre, (ev :: evs), final.
      split; [exact Hopen|].
      split; [simpl; lia|].
      split; [constructor; assumption|].
      split; [exact Hfinal|].
      rewrite Hshape, Hfetch, Htrace.
      cbn [List.length seq combine flat_map retryBlock fst snd].
      rewrite <- !app_assoc. reflexivity.
Qed.

End Loop.

Section Blocks.
Variable cfg : RetryConfig.
Variable call : HttpCall.

Lemma wire_blocks (evs : list TelemetryEvent) :
  forall a,
    filter isWire (flat_map (retryBlock cfg call)
                            (combine (seq a (List.length evs)) evs))
    = flat_map (fun k => [Slept (backoffDelay cfg (Z.of_nat k)); Fetched call])
               (seq a (List.length evs)).
Proof.
  induction evs as [|ev evs IH]; intros a; [reflexivity|].
  cbn [List.length seq combine flat_map retryBlock fst snd].
  rewrite filter_app, IH. reflexivity.
Qed.

Lemma printed_blocks (evs : list TelemetryEvent) :
  forall a,
    printedOf (flat_map (retryBlock cfg call)
                        (combine (seq a (List.length evs)) evs)) = evs.
Proof.
  induction evs as [|ev evs IH]; intros a; [reflexivity|].
  cbn [List.length seq combine flat_map retryBlock fst snd].
  rewrite printedOf_app, IH. reflexivity.
Qed.

Lemma fetches_blocks (evs : list TelemetryEvent) :
  forall a,
    fetchesOf (flat_map (retryBlock cfg call)
                        (combine (seq a (List.length evs)) evs))
    = repeat call (List.length evs).
Proof.
  induction evs as [|ev evs IH]; intros a; [reflexivity|].
  cbn [List.length seq combine flat_map retryBlock fst snd].
  rewrite fetchesOf_app, IH. reflexivity.
Qed.

End Blocks.

Lemma sleeps_blocks (cfg : RetryConfig) (call : HttpCall) (evs : list TelemetryEvent) :
  forall a,
    sleepsOf (flat_map (retryBlock cfg call) (combine (seq a (List.length evs)) evs))
    = map (fun k => backoffDelay cfg (Z.of_nat k)) (seq a (List.length evs)).
Proof.
  induction evs as [|ev evs IH]; intros a; [reflexivity|].
  cbn [List.length seq combine flat_map retryBlock fst snd map].
  rewrite sleepsOf_app, IH. reflexivity.
Qed.

Lemma filter_retry_events (evs : list TelemetryEvent) (final : TelemetryEvent) :
  Forall (fun ev => status ev = retry) evs ->
  status final <> retry ->
  filter (fun ev => Status_eqb (status ev) retry) (evs ++ [final]) = evs.
Proof.
  intros Hevs Hfinal. rewrite filter_app. cbn [filter].
  replace (Status_eqb (status final) retry) with false
    by (destruct (status final); [reflexivity .. | contradiction]).
  rewrite app_nil_r.
  induction Hevs as [|ev evs Hev _ IH]; [reflexivity|].
  cbn [filter]. rewrite Hev, IH. reflexivity.
Qed.

(** The trace of a whole call of [makeRequest]. *)
Lemma makeRequest_shape client net provider request authHeader w :
  0 <= maxRetries (retryConfig client) ->
  exists (evs : list TelemetryEvent) (final : TelemetryEvent),
    Z.of_nat (List.length evs) <= maxRetries (retryConfig client)
    /\ Forall (fun ev => status ev = retry) evs
    /\ status final <> retry
    /\ trace (snd (makeRequest client net provider request authHeader w))
       = trace w ++ Fetched (chatCall provider request authHeader)
           :: flat_map (retryBlock (retryConfig client)
                                   (chatCall provider request authHeader))
                       (combine (seq 1 (List.length evs)) evs)
           ++ [Printed final].
Proof.
  intros Hmax. unfold makeRequest.
  replace (Z.to_nat (maxRetries (retryConfig client) + 1))
    with (S (Z.to_nat (maxRetries (retryConfig client)))) by lia.
  destruct (attemptLoop_shape client net provider request authHeader
              (newTimer (name provider) (clientFunction client) w)
              (Z.to_nat (maxRetries (retryConfig client))) 0 None w ltac:(lia))
    as [pre [evs [final [Hopen [Hlen [Hretry [Hfinal Hshape]]]]]]].
  simpl in Hopen. subst pre.
  exists evs, final. repeat split; [lia | assumption | assumption |].
  exact Hshape.
Qed.

Lemma makeRequest_fetches client net provider request authHeader w :
  0 <= maxRetries (retryConfig client) ->
  exists n : nat,
    fetchesOf (trace (snd (makeRequest client net provider request authHeader w)))
    = fetchesOf (trace w) ++ repeat (chatCall provider request authHeader) (S n).
Proof.
  intros Hmax.
  destruct (makeRequest_shape client net provider request authHeader w Hmax)
    as [evs [final [_ [_ [_ Hshape]]]]].
  exists (List.length evs). rewrite Hshape, fetchesOf_app.
  change (Fetched ?c :: ?l) with ([Fetched c] ++ l).
  rewrite !fetchesOf_app, fetches_blocks.
  cbn [fetchesOf flat_map app repeat]. now rewrite app_nil_r.
Qed.

(** C3.  In every call of [makeRequest] the requests and the sleeps
    alternate, starting with a request; the [k]-th sleep, the one that
    follows the retry event number [k] and precedes attempt [k + 1], lasts
    exactly min(baseDelayMs * backoffMultiplier^(k - 1), maxDelayMs)
    milliseconds; there are as many sleeps as retry events, and at most
    [maxRetries]. *)
Theorem makeRequest_backoff client net provider request authHeader w :
  0 <= maxRetries (retryConfig client) ->
  exists (n : nat) (rest : list Effect),
    Z.of_nat n <= maxRetries (retryConfig client)
    /\ trace (snd (makeRequest client net provider request authHeader w))
       = trace w ++ rest
    /\ List.length (filter (fun ev => Status_eqb (status ev) retry) (printedOf rest)) = n
    /\ filter isWire rest
       = Fetched (chatCall provider request authHeader)
           :: flat_map
                (fun k =>
                   [ Slept (Z.min (baseDelayMs (retryConfig client)
                                   * backoffMultiplier (retryConfig client)
                                     ^ (Z.of_nat k - 1))
                                  (maxDelayMs (retryConfig client)));
                     Fetched (chatCall provider request authHeader) ])
                (seq 1 n)
    /\ (forall k : nat,
          (1 <= k <= n)%nat ->
          nth_error (sleepsOf rest) (k - 1)
          = Some (Z.min (baseDelayMs (retryConfig client)
                         * backoffMultiplier (retryConfig client) ^ (Z.of_nat k - 1))
                        (maxDelayMs (retryConfig client)))).
Proof.
  intros Hmax.
  destruct (makeRequest_shape client net provider request authHeader w Hmax)
    as [evs [final [Hlen [Hretry [Hfinal Hshape]]]]].
  set (cfg := retryConfig client) in *.
  set (call := chatCall provider request authHeader) in *.
  exists (List.length evs). eexists. split; [exact Hlen|].
  split; [exact Hshape|].
  assert (Hwire : filter isWire
                    (Fetched call
                       :: flat_map (retryBlock cfg call)
                                   (combine (seq 1 (List.length evs)) evs)
                       ++ [Printed final])
                  = Fetched call
                      :: flat_map (fun k => [Slept (backoffDelay cfg (Z.of_nat k));
                                             Fetched call])
                                  (seq 1 (List.length evs))).
  { cbn [filter isWire]. rewrite filter_app, wire_blocks. cbn [filter isWire].
    now rewrite app_nil_r. }
  split; [|split].
  - change (Fetched call :: ?l) with ([Fetched call] ++ l).
    rewrite !printedOf_app, printed_blocks. cbn [printedOf flat_map app].
    rewrite filter_retry_events by assumption. reflexivity.
  - exact Hwire.
  - intros k Hk.
    change (Fetched call :: ?l) with ([Fetched call] ++ l).
    rewrite !sleepsOf_app. cbn [sleepsOf flat_map app].
    rewrite app_nil_r.
    assert (Hs : sleepsOf (flat_map (retryBlock cfg call)
                                    (combine (seq 1 (List.length evs)) evs))
                 = map (fun k => backoffDelay cfg (Z.of_nat k))
                       (seq 1 (List.length evs))).
    { clear. generalize 1%nat.
      induction evs as [|ev evs IH]; intros a; [reflexivity|].
      cbn [List.length seq combine flat_map retryBlock fst snd map].
      rewrite sleepsOf_app, IH. reflexivity. }
    fold (sleepsOf (flat_map (retryBlock cfg call)
                             (combine (seq 1 (List.length evs)) evs))).
    rewrite Hs.
    rewrite nth_error_map, nth_error_seq.
    destruct (Nat.ltb_spec (k - 1) (List.length evs)) as [_|Hge]; [|lia].
    cbn [option_map]. unfold backoffDelay.
    replace (1 + (k - 1))%nat with k by lia. reflexivity.
Qed.

Lemma makeRequest_backoff_witness :
  exists (n : nat) (rest : list Effect),
    Z.of_nat n <= 2
    /\ trace (snd (makeRequest storyClient unavailable textPrimary shortRequest
                               "Bearer sk-test" emptyWorld))
       = [] ++ rest
    /\ List.length (filter (fun ev => Status_eqb (status ev) retry) (printedOf rest)) = n
    /\ filter isWire rest
       = Fetched (chatCall textPrimary shortRequest "Bearer sk-test")
           :: flat_map
                (fun k =>
                   [ Slept (Z.min (1000 * 2 ^ (Z.of_nat k - 1)) 8000);
                     Fetched (chatCall textPrimary shortRequest "Bearer sk-test") ])
                (seq 1 n)
    /\ (forall k : nat,
          (1 <= k <= n)%nat ->
          nth_error (sleepsOf rest) (k - 1)
          = Some (Z.min (1000 * 2 ^ (Z.of_nat k - 1)) 8000)).
Proof.
  apply (makeRequest_backoff storyClient unavailable textPrimary shortRequest
                             "Bearer sk-test" emptyWorld).
  simpl. lia.
Defined.

(** With the default configuration and a provider that keeps answering
    503, both retries are made, after 1000 and 2000 milliseconds. *)
Example backoff_of_unavailable_provider :
  sleepsOf (trace (snd (makeRequest storyClient unavailable textPrimary shortRequest
                                    "Bearer sk-test" emptyWorld)))
  = [1000; 2000].
Proof. vm_compute. reflexivity. Qed.

(** C5.  When the first attempt of a call fails with an error that the
    classifier does not mark retryable, the call makes that one request
    and nothing else on the wire, prints and stores a single telemetry
    event, of status [failure] and carrying the message of the error, and
    throws that error. *)
Theorem makeRequest_fatal_first_attempt
        client net provider request authHeader w error w1 :
  0 <= maxRetries (retryConfig client) ->
  attemptOnce net provider request authHeader w = (Throw error, w1) ->
  isRetryableError error = false ->
  exists ev : TelemetryEvent,
    fst (makeRequest client net provider request authHeader w) = Throw error
    /\ trace (snd (makeRequest client net provider request authHeader w))
       = trace w ++ [Fetched (chatCall provider request authHeader); Printed ev]
    /\ telemetryBuffer (snd (makeRequest client net provider request authHeader w))
       = pushRotate ev (telemetryBuffer w)
    /\ status ev = failure
    /\ errorMessage ev = Some (message error)
    /\ Telemetry.provider ev = name provider.
Proof.
  intros Hmax Hfirst Hfatal.
  pose proof (attemptOnce_trace net provider request authHeader w) as Htrace.
  pose proof (attemptOnce_buffer net provider request authHeader w) as Hbuf.
  rewrite Hfirst in Htrace, Hbuf. cbn [snd] in Htrace, Hbuf.
  unfold makeRequest.
  replace (Z.to_nat (maxRetries (retryConfig client) + 1))
    with (S (Z.to_nat (maxRetries (retryConfig client)))) by lia.
  rewrite attemptLoop_S. change (0 <? 0) with false. cbv iota.
  rewrite Hfirst, Hfatal. cbn [negb orb fst snd].
  eexists. split; [reflexivity|]. unfold timerFailure.
  rewrite timerLog_trace, timerLog_buffer, Htrace, Hbuf, <- app_assoc.
  repeat split.
Qed.

Lemma makeRequest_fatal_first_attempt_witness :
  exists ev : TelemetryEvent,
    fst (makeRequest storyClient unauthorized textPrimary shortRequest
                     "Bearer sk-test" emptyWorld)
    = Throw (newError "HTTP 401: Unauthorized")
    /\ trace (snd (makeRequest storyClient unauthorized textPrimary shortRequest
                               "Bearer sk-test" emptyWorld))
       = [] ++ [Fetched (chatCall textPrimary shortRequest "Bearer sk-test"); Printed ev]
    /\ telemetryBuffer (snd (makeRequest storyClient unauthorized textPrimary
                                         shortRequest "Bearer sk-test" emptyWorld))
       = pushRotate ev []
    /\ status ev = failure
    /\ errorMessage ev = Some "HTTP 401: Unauthorized"
    /\ Telemetry.provider ev = "OpenAI".
Proof.
  apply (makeRequest_fatal_first_attempt
           storyClient unauthorized textPrimary shortRequest "Bearer sk-test"
           emptyWorld (newError "HTTP 401: Unauthorized")
           (advance 80 (perform (Fetched (chatCall textPrimary shortRequest
                                                   "Bearer sk-test"))
                                emptyWorld))).
  - simpl. lia.
  - reflexivity.
  - reflexivity.
Defined.

End RetryProps.

(* ================================================================== *)
(** ** The fallback protocol *)

Module FallbackProps.
Import AiConfig Wire Telemetry AIClient Terms Scenario RetryProps.

Lemma skipn_length_app {A : Type} (l rest : list A) :
  skipn (List.length l) (l ++ rest) = rest.
Proof. induction l as [|x l IH]; [reflexivity | exact IH]. Qed.

Lemma skipn_length_self {A : Type} (l : list A) : skipn (List.length l) l = [].
Proof. induction l as [|x l IH]; [reflexivity | exact IH]. Qed.

Lemma fallbackEntry_fetches client primaryProvider primaryError w1 :
  fetchesOf (trace (fallbackEntry client primaryProvider primaryError w1))
  = fetchesOf (trace w1).
Proof.
  unfold fallbackEntry, timerFallback. rewrite timerLog_trace, fetchesOf_app.
  cbn [fetchesOf flat_map app]. now rewrite app_nil_r.
Qed.

(** The two ways in which [makeRequestWithFallback] ends when the primary
    has failed. *)
Lemma fallback_branch client net primaryProvider fallbackProvider request
      getPrimaryAuthHeader getFallbackAuthHeader w primaryError w1 :
  requestWith client net primaryProvider request getPrimaryAuthHeader w
  = (Throw primaryError, w1) ->
  makeRequestWithFallback client net primaryProvider fallbackProvider request
                          getPrimaryAuthHeader getFallbackAuthHeader w
  = match requestWith client net fallbackProvider
                      (adaptRequestForProvider request fallbackProvider)
                      getFallbackAuthHeader
                      (fallbackEntry client primaryProvider primaryError w1) with
    | (Ok response, w3) => (Ok (mkUsed response fallbackProvider), w3)
    | (Throw fallbackError, w3) =>
        (Throw (bothFailed primaryProvider fallbackProvider
                           primaryError fallbackError), w3)
    end.
Proof. intros H. unfold makeRequestWithFallback. rewrite H. reflexivity. Qed.

(** C4.  With header thunks that return, and compared with the run of
    [makeRequest] on the primary alone: requests beyond those of the
    primary are made exactly when the primary ends in failure, and all of
    them go to the fallback with the adapted payload; when the primary
    succeeds the result is its response with [usedProvider] the primary and
    nothing else happens; when it fails, a successful result has
    [usedProvider] the fallback. *)
Theorem fallback_iff_primary_fails
        client net primaryProvider fallbackProvider request
        primaryHeader fallbackHeader w :
  0 <= maxRetries (retryConfig client) ->
  let primaryRun :=
    makeRequest client net primaryProvider request primaryHeader w in
  let run :=
    makeRequestWithFallback client net primaryProvider fallbackProvider request
                            (Ok primaryHeader) (Ok fallbackHeader) w in
  let fallbackCalls :=
    skipn (List.length (fetchesOf (trace (snd primaryRun))))
          (fetchesOf (trace (snd run))) in
  ((exists e, fst primaryRun = Throw e) <-> fallbackCalls <> [])
  /\ Forall (fun c => c = chatCall fallbackProvider
                                   (adaptRequestForProvider request fallbackProvider)
                                   fallbackHeader) fallbackCalls
  /\ (forall response,
        fst primaryRun = Ok response ->
        run = (Ok (mkUsed response primaryProvider), snd primaryRun))
  /\ (forall e used,
        fst primaryRun = Throw e ->
        fst run = Ok used ->
        usedProvider used = fallbackProvider).
Proof.
  intros Hmax primaryRun run fallbackCalls.
  destruct primaryRun as [[response|primaryError] w1] eqn:Eprimary.
  - (* the primary succeeded *)
    assert (Hrun : run = (Ok (mkUsed response primaryProvider), w1)).
    { subst run. unfold makeRequestWithFallback, requestWith.
      fold primaryRun. now rewrite Eprimary. }
    assert (Hcalls : fallbackCalls = []).
    { subst fallbackCalls. rewrite Hrun. apply skipn_length_self. }
    rewrite Hcalls. cbn [fst snd]. repeat split.
    + intros [e He]. discriminate He.
    + intros Hne. now contradiction Hne.
    + constructor.
    + intros response' Hok. injection Hok as <-. exact Hrun.
    + intros e used He. discriminate He.
  - (* the primary failed *)
    pose proof (fallback_branch client net primaryProvider fallbackProvider request
                  (Ok primaryHeader) (Ok fallbackHeader) w primaryError w1
                  Eprimary) as Hrun.
    fold run in Hrun. cbn [requestWith] in Hrun.
    destruct (makeRequest_fetches client net fallbackProvider
                (adaptRequestForProvider request fallbackProvider) fallbackHeader
                (fallbackEntry client primaryProvider primaryError w1) Hmax)
      as [n Hfetches].
    rewrite fallbackEntry_fetches in Hfetches.
    assert (Hcalls : fallbackCalls
                     = repeat (chatCall fallbackProvider
                                        (adaptRequestForProvider request fallbackProvider)
                                        fallbackHeader) (S n)).
    { subst fallbackCalls. rewrite Hrun. cbn [snd].
      destruct (makeRequest client net fallbackProvider _ fallbackHeader _)
        as [[r|e] w3]; cbn [snd] in *; rewrite Hfetches; apply skipn_length_app. }
    rewrite Hcalls. cbn [fst snd]. repeat split.
    + intros _. discriminate.
    + intros _. now exists primaryError.
    + apply Forall_forall. intros c Hin. now apply repeat_spec in Hin.
    + intros response Hok. discriminate Hok.
    + intros e used _ Hused. rewrite Hrun in Hused.
      destruct (makeRequest client net fallbackProvider _ fallbackHeader _)
        as [[r|e'] w3]; cbn [fst] in Hused; [|discriminate].
      now injection Hused as <-.
Qed.

Lemma fallback_iff_primary_fails_witness :
  fst (makeRequestWithFallback storyClient primaryDown textPrimary textFallback
                               shortRequest (Ok "Bearer sk-test") (Ok "Bearer ovh-test")
                               emptyWorld)
  = Ok (mkUsed story textFallback)
  /\ usedProvider (mkUsed story textFallback) = textFallback.
Proof.
  split; [vm_compute; reflexivity|].
  apply (proj2 (proj2 (proj2
           (fallback_iff_primary_fails storyClient primaryDown textPrimary textFallback
              shortRequest "Bearer sk-test" "Bearer ovh-test" emptyWorld
              ltac:(simpl; lia))))
           (mkError "TypeError" "request timeout")).
  - vm_compute. reflexivity.
  - vm_compute. reflexivity.
Defined.

(** The scenario of the specification: the primary exhausts its retries
    on a timeout and the fallback answers at once.  The primary leaves two
    retry events, its failure and one fallback event; the fallback leaves
    one success event. *)
Example primary_exhausted_fallback_succeeds :
  map (fun ev => (Telemetry.provider ev, status ev))
      (printedOf (trace (snd (makeRequestWithFallback
                                storyClient primaryDown textPrimary textFallback
                                shortRequest (Ok "Bearer sk-test")
                                (Ok "Bearer ovh-test") emptyWorld))))
  = [ ("OpenAI", retry); ("OpenAI", retry); ("OpenAI", failure);
      ("OpenAI", fallback); ("OVH", success) ].
Proof. vm_compute. reflexivity. Qed.

(** C8.  When the call on the primary fails and the call on the fallback
    fails as well, [makeRequestWithFallback] throws an error whose message
    contains the message of the primary's error and the message of the
    fallback's error, each unaltered. *)
Theorem both_failed_keeps_messages
        client net primaryProvider fallbackProvider request
        getPrimaryAuthHeader getFallbackAuthHeader w
        primaryError w1 fallbackError w3 :
  requestWith client net primaryProvider request getPrimaryAuthHeader w
  = (Throw primaryError, w1) ->
  requestWith client net fallbackProvider
              (adaptRequestForProvider request fallbackProvider)
              getFallbackAuthHeader
              (fallbackEntry client primaryProvider primaryError w1)
  = (Throw fallbackError, w3) ->
  exists err,
    fst (makeRequestWithFallback client net primaryProvider fallbackProvider request
                                 getPrimaryAuthHeader getFallbackAuthHeader w)
    = Throw err
    /\ message err
       = ("Both AI providers failed. Primary (" ++ name primaryProvider ++ "): "
          ++ message primaryError ++ ". Fallback (" ++ name fallbackProvider ++ "): "
          ++ message fallbackError)%string
    /\ Str.includes (message err) (message primaryError) = true
    /\ Str.includes (message err) (message fallbackError) = true.
Proof.
  intros Hprimary Hfallback.
  rewrite (fallback_branch _ _ _ _ _ _ _ _ _ _ Hprimary), Hfallback.
  eexists. split; [reflexivity|]. cbn [message bothFailed newError].
  split; [reflexivity|split]; apply StrFacts.includes_iff.
  - exists ("Both AI providers failed. Primary (" ++ name primaryProvider ++ "): ")%string,
           (". " ++ "Fallback (" ++ name fallbackProvider ++ "): "
            ++ message fallbackError)%string.
    rewrite !StrFacts.append_assoc. reflexivity.
  - exists ("Both AI providers failed. Primary (" ++ name primaryProvider ++ "): "
            ++ message primaryError ++ ". "
            ++ "Fallback (" ++ name fallbackProvider ++ "): ")%string,
           EmptyString.
    rewrite StrFacts.append_nil_r, !StrFacts.append_assoc. reflexivity.
Qed.

Lemma both_failed_keeps_messages_witness :
  exists err,
    fst (makeRequestWithFallback storyClient unauthorized textPrimary textFallback
                                 shortRequest (Ok "Bearer sk-test")
                                 (Throw (newError "Unknown provider: OVH2")) emptyWorld)
    = Throw err
    /\ message err
       = ("Both AI providers failed. Primary (" ++ "OpenAI" ++ "): "
          ++ "HTTP 401: Unauthorized" ++ ". Fallback (" ++ "OVH" ++ "): "
          ++ "Unknown provider: OVH2")%string
    /\ Str.includes (message err) "HTTP 401: Unauthorized" = true
    /\ Str.includes (message err) "Unknown provider: OVH2" = true.
Proof.
  eapply (both_failed_keeps_messages
            storyClient unauthorized textPrimary textFallback shortRequest
            (Ok "Bearer sk-test") (Throw (newError "Unknown provider: OVH2"))
            emptyWorld (newError "HTTP 401: Unauthorized") _
            (newError "Unknown provider: OVH2") _).
  - vm_compute. reflexivity.
  - reflexivity.
Defined.

End FallbackProps.

(* ================================================================== *)
(** ** The health probe *)

Module HealthProps.
Import AiConfig Wire Telemetry HealthCheck Terms Scenario.

Lemma checkProviderAvailability_credential (env : Env) (p : AIProvider) :
  checkProviderAvailability env p = usableKey (credentialOf env p).
Proof.
  unfold checkProviderAvailability, credentialOf.
  destruct (String.eqb (name p) "OpenAI"); [reflexivity|].
  destruct (String.eqb (name p) "OVH"); [reflexivity|].
  destruct (String.eqb (name p) "OVH_SDXL"); reflexivity.
Qed.

(** A credential that is absent, empty or a placeholder does not resolve. *)
Lemma unavailable_without_credential (env : Env) (p : AIProvider) :
  (credentialOf env p = None
   \/ credentialOf env p = Some EmptyString
   \/ exists k, credentialOf env p = Some k /\ Str.includes k "placeholder" = true) ->
  checkProviderAvailability env p = false.
Proof.
  rewrite checkProviderAvailability_credential.
  intros [-> | [-> | [k [-> Hk]]]]; [reflexivity | reflexivity |].
  unfold usableKey. rewrite Hk. apply andb_false_r.
Qed.

(** C9, as the code has it.  For a provider whose credential does not
    resolve, the probe answers at once: the provider is reported unhealthy
    with response time 0 and the error text [API key not configured or
    invalid], no request is made and no time passes. *)
Theorem checkProvider_short_circuit (env : Env) (net : Network)
        (p : AIProvider) (w : World) :
  checkProviderAvailability env p = false ->
  fst (checkProvider env net p w)
  = mkHealth (name p) false 0 (Some "API key not configured or invalid") (clock w)
  /\ fetchesOf (trace (snd (checkProvider env net p w))) = fetchesOf (trace w)
  /\ trace (snd (checkProvider env net p w))
     = trace w ++ [HealthPrinted (name p) false 0 (clock w)]
  /\ clock (snd (checkProvider env net p w)) = clock w.
Proof.
  intros H. unfold checkProvider. rewrite H. cbn [negb fst snd].
  repeat split.
  unfold logProviderHealth, perform. cbn [trace].
  rewrite RetryProps.fetchesOf_app. cbn [fetchesOf flat_map app].
  now rewrite app_nil_r.
Qed.

Lemma checkProvider_short_circuit_witness :
  fst (checkProvider placeholderKeys primaryDown textPrimary emptyWorld)
  = mkHealth "OpenAI" false 0 (Some "API key not configured or invalid") 1700000000000
  /\ fetchesOf (trace (snd (checkProvider placeholderKeys primaryDown textPrimary
                                          emptyWorld))) = []
  /\ trace (snd (checkProvider placeholderKeys primaryDown textPrimary emptyWorld))
     = [] ++ [HealthPrinted "OpenAI" false 0 1700000000000]
  /\ clock (snd (checkProvider placeholderKeys primaryDown textPrimary emptyWorld))
     = 1700000000000.
Proof.
  apply (checkProvider_short_circuit placeholderKeys primaryDown textPrimary emptyWorld).
  reflexivity.
Defined.

(** The error text of the short circuit is not the one of the
    specification. *)
Lemma checkProvider_error_text :
  checkProviderAvailability noKeys textFallback = false
  /\ ~ (isHealthy (fst (checkProvider noKeys primaryDown textFallback emptyWorld)) = false
        /\ error (fst (checkProvider noKeys primaryDown textFallback emptyWorld))
           = Some "credential not configured"
        /\ HealthCheck.responseTimeMs
             (fst (checkProvider noKeys primaryDown textFallback emptyWorld)) = 0).
Proof.
  split; [reflexivity|]. intros [_ [H _]]. vm_compute in H. discriminate H.
Qed.

(** Three probes of which the second hit the short circuit: the system
    is degraded. *)
Example one_missing_credential_degrades :
  overall [ mkHealth "OpenAI" true 180 None 1700000000180;
            fst (checkProvider noKeys primaryDown textFallback emptyWorld);
            mkHealth "OVH_SDXL" true 240 None 1700000000240 ]
  = degraded.
Proof. reflexivity. Qed.

End HealthProps.

(* ================================================================== *)
(** ** Windowed statistics *)

Module StatsProps.
Import Wire Telemetry TelemetryStats Terms Scenario.

Lemma filter_all {A : Type} (f : A -> bool) (l : list A) :
  Forall (fun x => f x = true) l -> filter f l = l.
Proof.
  induction 1 as [|x l Hx _ IH]; [reflexivity|].
  cbn [filter]. now rewrite Hx, IH.
Qed.

Lemma filter_none {A : Type} (f : A -> bool) (l : list A) :
  Forall (fun x => f x = false) l -> filter f l = [].
Proof.
  induction 1 as [|x l Hx _ IH]; [reflexivity|].
  cbn [filter]. now rewrite Hx, IH.
Qed.

(** *** Every event of the input is counted once *)

Lemma groupedEvents_cons (g : Group) (groups : list Group) :
  groupedEvents (g :: groups) = (List.length (snd g) + groupedEvents groups)%nat.
Proof. reflexivity. Qed.

Lemma pushInto_grouped (k : string) (event : TelemetryEvent) (acc : list Group) :
  groupedEvents (pushInto k event acc) = S (groupedEvents acc).
Proof.
  induction acc as [|[k' events] rest IH]; [reflexivity|].
  cbn [pushInto]. destruct (String.eqb k k'); rewrite !groupedEvents_cons; cbn [snd].
  - rewrite length_app. cbn [List.length]. lia.
  - rewrite IH. lia.
Qed.

Lemma fold_groupStep_thrown (events : list TelemetryEvent) (e : JsError) :
  fold_left groupStep events (Throw e) = Throw e.
Proof. induction events as [|ev events IH]; [reflexivity | exact IH]. Qed.

Lemma fold_groupStep_grouped (events : list TelemetryEvent) :
  forall acc groups,
    fold_left groupStep events (Ok acc) = Ok groups ->
    groupedEvents groups = (groupedEvents acc + List.length events)%nat.
Proof.
  induction events as [|ev events IH]; intros acc groups H.
  - injection H as <-. cbn [List.length]. lia.
  - cbn [fold_left groupStep] in H.
    destruct (inherited (provider ev)).
    + rewrite fold_groupStep_thrown in H. discriminate H.
    + rewrite (IH _ _ H), pushInto_grouped. cbn [List.length]. lia.
Qed.

Lemma insertIndexed_perm (n : N) (g : Group) (l : list (N * Group)) :
  Permutation (map snd (insertIndexed n g l)) (g :: map snd l).
Proof.
  induction l as [|[m h] rest IH]; [reflexivity|].
  cbn [insertIndexed]. destruct (n <? m)%N; cbn [map snd]; [reflexivity|].
  rewrite IH. apply perm_swap.
Qed.

Lemma objectEntries_perm (groups : list Group) :
  Permutation (objectEntries groups) groups.
Proof.
  unfold objectEntries.
  induction groups as [|g groups IH]; [reflexivity|].
  cbn [indexedEntries fold_right namedEntries filter].
  fold (indexedEntries groups). fold (namedEntries groups).
  destruct (arrayIndex (fst g)).
  - rewrite insertIndexed_perm. cbn [app]. now apply perm_skip.
  - rewrite <- Permutation_middle. now apply perm_skip.
Qed.

Lemma groupedEvents_perm (a b : list Group) :
  Permutation a b -> groupedEvents a = groupedEvents b.
Proof.
  induction 1; rewrite ?groupedEvents_cons; lia.
Qed.

Lemma statsOver_counts (events : list TelemetryEvent) (stats : list ProviderStats) :
  statsOver events = Ok stats -> eventsCounted stats = List.length events.
Proof.
  unfold statsOver, groupByProvider.
  destruct (fold_left groupStep events (Ok [])) as [groups|e] eqn:E; [|discriminate].
  intros H. injection H as <-.
  unfold eventsCounted. rewrite map_map.
  change (list_sum (map (fun g => totalRequests (statsOfGroup g)) (objectEntries groups)))
    with (groupedEvents (objectEntries groups)).
  rewrite (groupedEvents_perm _ _ (objectEntries_perm groups)).
  now rewrite (fold_groupStep_grouped _ _ _ E).
Qed.

(** C1, as the code has it.  A window of 0 is taken for an omitted
    window.  An infinite window gives the statistics of the entire buffer,
    and so do an omitted window and a window of 0 on a buffer whose events
    are stamped after the epoch; in these statistics every event of the
    buffer is counted once.  A window other than 0 that reaches back to none
    of the events gives no statistics at all. *)
Theorem getTelemetryStats_windows (w : World) :
  getTelemetryStats (Some (Millis 0)) w = getTelemetryStats None w
  /\ getTelemetryStats (Some PlusInfinity) w = statsOver (telemetryBuffer w)
  /\ (Forall (fun event => 0 < timestamp event) (telemetryBuffer w) ->
      getTelemetryStats None w = statsOver (telemetryBuffer w))
  /\ (forall stats,
        statsOver (telemetryBuffer w) = Ok stats ->
        eventsCounted stats = List.length (telemetryBuffer w))
  /\ (forall ms,
        ms <> 0 ->
        Forall (fun event => timestamp event <= clock w - ms) (telemetryBuffer w) ->
        getTelemetryStats (Some (Millis ms)) w = Ok []).
Proof.
  unfold getTelemetryStats, relevantEvents.
  split; [reflexivity|]. split; [|split; [|split]].
  - cbn [cutoffTime truthy minus]. rewrite filter_all; [reflexivity|].
    apply Forall_forall. reflexivity.
  - intros Hpos. cbn [cutoffTime]. rewrite filter_all; [reflexivity|].
    eapply Forall_impl; [|exact Hpos].
    intros event H. now apply Z.ltb_lt.
  - apply statsOver_counts.
  - intros ms Hms Hold. cbn [cutoffTime truthy].
    replace (ms =? 0) with false by (symmetry; now apply Z.eqb_neq).
    cbn [negb minus]. rewrite filter_none; [reflexivity|].
    eapply Forall_impl; [|exact Hold].
    intros event H. cbn [laterThan]. now apply Z.ltb_ge.
Qed.

Lemma getTelemetryStats_windows_witness :
  getTelemetryStats None oneEventWorld = statsOver (telemetryBuffer oneEventWorld)
  /\ eventsCounted [mkStats "OpenAI" 1 1 0 0 0 0 42 (10000 # 100)] = 1%nat
  /\ getTelemetryStats (Some (Millis 1000)) oneEventWorld = Ok [].
Proof.
  destruct (getTelemetryStats_windows oneEventWorld) as [_ [_ [Hall [Hcount Hshort]]]].
  split; [|split].
  - apply Hall. repeat constructor.
  - apply Hcount. vm_compute. reflexivity.
  - apply Hshort.
    + discriminate.
    + repeat constructor. vm_compute. discriminate.
Defined.

(** With a window of 0 the event recorded five seconds ago is counted. *)
Lemma getTelemetryStats_zero_window_not_empty :
  getTelemetryStats (Some (Millis 0)) oneEventWorld
  = Ok [mkStats "OpenAI" 1 1 0 0 0 0 42 (10000 # 100)]
  /\ getTelemetryStats (Some (Millis 0)) oneEventWorld <> Ok [].
Proof. split; [vm_compute; reflexivity | vm_compute; discriminate]. Qed.

End StatsProps.

(* ================================================================== *)
(** ** The provider registry *)

Module RegistryProps.
Import AiConfig Wire Terms Scenario.

Lemma usableKey_some (key : option string) :
  usableKey key = true ->
  exists k, key = Some k /\ k <> EmptyString /\ Str.includes k "placeholder" = false.
Proof.
  destruct key as [k|]; [|discriminate]. cbn [usableKey].
  rewrite andb_true_iff, negb_true_iff. intros [Hne Hp].
  exists k. repeat split; [|exact Hp].
  intros ->. discriminate Hne.
Qed.

Lemma getAuthHeader_known (env : Env) (p : AIProvider) :
  (known p = false
   -> getAuthHeader env p = inr ("Unknown provider: " ++ name p)%string)
  /\ (known p = true
      -> getAuthHeader env p = inl (bearer (credentialOf env p))).
Proof.
  unfold known, getAuthHeader, credentialOf.
  destruct (String.eqb (name p) "OpenAI"); cbn [orb];
    [|destruct (String.eqb (name p) "OVH" || String.eqb (name p) "OVH_SDXL")];
    split; intros H; try reflexivity; discriminate H.
Qed.

Lemma available_known (env : Env) (p : AIProvider) :
  checkProviderAvailability env p = true -> known p = true.
Proof.
  unfold checkProviderAvailability, known.
  destruct (String.eqb (name p) "OpenAI"); [reflexivity|].
  destruct (String.eqb (name p) "OVH"); [reflexivity|].
  destruct (String.eqb (name p) "OVH_SDXL"); [reflexivity | discriminate].
Qed.

Lemma available_header (env : Env) (p : AIProvider) :
  checkProviderAvailability env p = true ->
  getAuthHeader env p = inl (bearer (credentialOf env p)).
Proof.
  intros H. apply getAuthHeader_known. now apply available_known in H.
Qed.



(** [getAuthHeader] throws exactly for the providers whose name is none of
    OpenAI, OVH and OVH_SDXL, with a message that names the provider; these
    providers are never available. *)
Theorem getAuthHeader_unknown_provider (env : Env) (p : AIProvider) :
  ((exists msg, getAuthHeader env p = inr msg)
   <-> (name p <> "OpenAI" /\ name p <> "OVH" /\ name p <> "OVH_SDXL"))
  /\ (forall msg,
        getAuthHeader env p = inr msg ->
        msg = ("Unknown provider: " ++ name p)%string
        /\ checkProviderAvailability env p = false).
Proof.
  unfold getAuthHeader, checkProviderAvailability.
  destruct (String.eqb_spec (name p) "OpenAI") as [E1|E1];
    destruct (String.eqb_spec (name p) "OVH") as [E2|E2];
    destruct (String.eqb_spec (name p) "OVH_SDXL") as [E3|E3];
    cbn [orb]; (split; [split|]).
  all: try (intros [msg H]; discriminate H).
  all: try (intros msg H; discriminate H).
  all: try (intros [H1 [H2 H3]]; contradiction).
  - intros _. repeat split; assumption.
  - intros _. eexists. reflexivity.
  - intros msg H. injection H as <-. split; reflexivity.
Qed.

Lemma getAuthHeader_unknown_provider_witness :
  getAuthHeader liveKeys otherProvider = inr "Unknown provider: Mistral"
  /\ checkProviderAvailability liveKeys otherProvider = false.
Proof.
  destruct (proj2 (getAuthHeader_unknown_provider liveKeys otherProvider)
                  "Unknown provider: Mistral" eq_refl) as [_ H].
  split; [reflexivity | exact H].
Defined.

(** The text provider that [getAvailableTextProvider] returns is the
    primary or the fallback, is available, and is the fallback only when the
    primary is not available; the function throws exactly when neither of the
    two is available. *)
Theorem getAvailableTextProvider_selection (env : Env) :
  (forall p,
      getAvailableTextProvider env = inl p ->
      checkProviderAvailability env p = true
      /\ (p = textPrimary
          \/ (p = textFallback /\ checkProviderAvailability env textPrimary = false)))
  /\ (checkProviderAvailability env textPrimary = true ->
      getAvailableTextProvider env = inl textPrimary)
  /\ ((exists msg, getAvailableTextProvider env = inr msg)
      <-> (checkProviderAvailability env textPrimary = false
           /\ checkProviderAvailability env textFallback = false)).
Proof.
  unfold getAvailableTextProvider.
  destruct (checkProviderAvailability env textPrimary) eqn:Ep;
    destruct (checkProviderAvailability env textFallback) eqn:Ef;
    (split; [|split; [|split]]).
  all: try (intros p H; injection H as <-; split; [assumption | tauto]).
  all: try (intros p H; discriminate H).
  all: try reflexivity.
  all: try discriminate.
  all: try (intros [msg H]; discriminate H).
  all: try (intros [H1 H2]; discriminate).
  - intros _. split; reflexivity.
  - intros _. eexists. reflexivity.
Qed.

Lemma getAvailableTextProvider_selection_witness :
  checkProviderAvailability ovhOnlyKeys textFallback = true
  /\ (textFallback = textPrimary
      \/ (textFallback = textFallback
          /\ checkProviderAvailability ovhOnlyKeys textPrimary = false)).
Proof.
  apply (proj1 (getAvailableTextProvider_selection ovhOnlyKeys) textFallback).
  reflexivity.
Defined.

(** Whatever provider the registry selects, for text or for images, is
    available, and [getAuthHeader] builds its header from a credential that
    is neither empty nor a placeholder. *)
Theorem selected_provider_has_header (env : Env) (p : AIProvider) :
  getAvailableTextProvider env = inl p \/ getImageProvider env = inl p ->
  checkProviderAvailability env p = true
  /\ exists k,
       k <> EmptyString
       /\ Str.includes k "placeholder" = false
       /\ getAuthHeader env p = inl ("Bearer " ++ k)%string.
Proof.
  intros Hsel.
  assert (Havail : checkProviderAvailability env p = true).
  { destruct Hsel as [H|H].
    - revert H. unfold getAvailableTextProvider.
      destruct (checkProviderAvailability env textPrimary) eqn:Ep.
      + intros H. now injection H as <-.
      + destruct (checkProviderAvailability env textFallback) eqn:Ef.
        * intros H. now injection H as <-.
        * discriminate.
    - revert H. unfold getImageProvider.
      destruct (checkProviderAvailability env imagePrimary) eqn:Ei; cbn [negb].
      + intros H. now injection H as <-.
      + discriminate. }
  split; [exact Havail|].
  rewrite (available_header env p Havail).
  rewrite HealthProps.checkProviderAvailability_credential in Havail.
  destruct (usableKey_some _ Havail) as [k [Hk [Hne Hp]]].
  exists k. rewrite Hk. repeat split; assumption.
Qed.

Lemma selected_provider_has_header_witness :
  checkProviderAvailability ovhOnlyKeys textFallback = true
  /\ exists k,
       k <> EmptyString
       /\ Str.includes k "placeholder" = false
       /\ getAuthHeader ovhOnlyKeys textFallback = inl ("Bearer " ++ k)%string.
Proof.
  apply (selected_provider_has_header ovhOnlyKeys textFallback).
  left. reflexivity.
Defined.

End RegistryProps.

(* ================================================================== *)
(** ** Grouping by provider *)

Module GroupingProps.
Import Wire Telemetry TelemetryStats Terms Scenario.

Lemma eventsOf_app (k : string) (a b : list TelemetryEvent) :
  eventsOf k (a ++ b) = eventsOf k a ++ eventsOf k b.
Proof. apply filter_app. Qed.

Lemma pushInto_keys (k : string) (event : TelemetryEvent) (acc : list Group) :
  (In k (map fst acc) -> map fst (pushInto k event acc) = map fst acc)
  /\ (~ In k (map fst acc) -> map fst (pushInto k event acc) = map fst acc ++ [k]).
Proof.
  induction acc as [|[k' events] rest [IHin IHout]]; cbn [pushInto map fst].
  - split; [intros [] | reflexivity].
  - destruct (String.eqb_spec k k') as [->|Hne]; cbn [map fst In].
    + split; [reflexivity | intros H; exfalso; apply H; now left].
    + split.
      * intros [H|H]; [congruence | now rewrite IHin].
      * intros H. cbn [app]. rewrite IHout; [reflexivity | tauto].
Qed.

(** Where a group of the extended accumulator comes from. *)
Lemma pushInto_group (k : string) (event : TelemetryEvent) (acc : list Group) :
  NoDup (map fst acc) ->
  forall g,
    In g (pushInto k event acc) ->
    (fst g <> k /\ In g acc)
    \/ (fst g = k
        /\ exists old, snd g = old ++ [event]
                       /\ (In (k, old) acc \/ (old = [] /\ ~ In k (map fst acc)))).
Proof.
  induction acc as [|[k' events] rest IH]; intros Hnd g Hin; cbn [pushInto] in Hin.
  - destruct Hin as [<-|[]]. right. split; [reflexivity|].
    exists []. split; [reflexivity | right; split; [reflexivity | intros []]].
  - cbn [map fst] in Hnd. apply NoDup_cons_iff in Hnd as [Hfresh Hnd].
    destruct (String.eqb_spec k k') as [->|Hne].
    + destruct Hin as [<-|Hin].
      * right. split; [reflexivity|]. exists events.
        split; [reflexivity | left; now left].
      * left. split; [|now right].
        intros Heq. apply Hfresh. rewrite <- Heq. now apply in_map.
    + destruct Hin as [<-|Hin].
      * left. split; [cbn [fst]; congruence | now left].
      * destruct (IH Hnd g Hin) as [[Hk Hg] | [Hk [old [Hold Hsrc]]]].
        -- left. split; [exact Hk | now right].
        -- right. split; [exact Hk|]. exists old. split; [exact Hold|].
           destruct Hsrc as [Hsrc | [-> Hout]].
           ++ left. now right.
           ++ right. split; [reflexivity|].
              cbn [map fst In]. intros [H|H]; [congruence | contradiction].
Qed.

Lemma eventsOf_absent (k : string) (events : list TelemetryEvent) :
  (forall event, In event events -> provider event <> k) ->
  eventsOf k events = [].
Proof.
  intros H. apply StatsProps.filter_none. apply Forall_forall.
  intros event Hin. apply String.eqb_neq. now apply H.
Qed.

(** One step of the [reduce] keeps the groups those of the events seen. *)
Lemma pushInto_grouped_events (event : TelemetryEvent) (acc : list Group)
      (history : list TelemetryEvent) :
  grouped acc history ->
  grouped (pushInto (provider event) event acc) (history ++ [event]).
Proof.
  intros [Hnd [Hgroups Hcover]].
  destruct (pushInto_keys (provider event) event acc) as [Hin Hout].
  split; [|split].
  - destruct (in_dec string_dec (provider event) (map fst acc)) as [H|H].
    + now rewrite (Hin H).
    + rewrite (Hout H). apply NoDup_app; [exact Hnd | repeat constructor; intros [] |].
      intros x Hx [<-|[]]. contradiction.
  - intros g Hg. rewrite eventsOf_app. cbn [eventsOf filter].
    destruct (pushInto_group _ _ _ Hnd g Hg) as [[Hk Hold] | [Hk [old [Hsnd Hsrc]]]].
    + destruct (Hgroups g Hold) as [Hevents Hne].
      replace (String.eqb (provider event) (fst g)) with false
        by (symmetry; apply String.eqb_neq; congruence).
      rewrite app_nil_r. split; assumption.
    + rewrite Hk, String.eqb_refl, Hsnd. split.
      * f_equal. destruct Hsrc as [Hsrc | [-> Hfresh]].
        -- now destruct (Hgroups _ Hsrc) as [Hevents _].
        -- symmetry. apply eventsOf_absent. intros e He Heq.
           apply Hfresh. rewrite <- Heq. now apply Hcover.
      * now destruct old.
  - intros e He. apply in_app_or in He as [He|[<-|[]]].
    + specialize (Hcover e He).
      destruct (in_dec string_dec (provider event) (map fst acc)) as [H|H].
      * now rewrite (Hin H).
      * rewrite (Hout H). apply in_or_app. now left.
    + destruct (in_dec string_dec (provider event) (map fst acc)) as [H|H].
      * now rewrite (Hin H).
      * rewrite (Hout H). apply in_or_app. right. now left.
Qed.

Lemma fold_groupStep_grouped_events (events : list TelemetryEvent) :
  forall acc history groups,
    grouped acc history ->
    fold_left groupStep events (Ok acc) = Ok groups ->
    grouped groups (history ++ events)
    /\ Forall (fun event => inherited (provider event) = false) events.
Proof.
  induction events as [|event events IH]; intros acc history groups Hacc H.
  - injection H as <-. rewrite app_nil_r. split; [exact Hacc | constructor].
  - cbn [fold_left groupStep] in H.
    destruct (inherited (provider event)) eqn:Einh.
    + rewrite StatsProps.fold_groupStep_thrown in H. discriminate H.
    + destruct (IH _ (history ++ [event]) _
                   (pushInto_grouped_events event acc history Hacc) H) as [Hg Hall].
      rewrite <- app_assoc in Hg. split; [exact Hg | now constructor].
Qed.

Lemma grouped_nil : grouped [] [].
Proof.
  split; [apply NoDup_nil | split]; [intros g [] | intros event []].
Qed.

Lemma groupByProvider_grouped (events : list TelemetryEvent) (groups : list Group) :
  groupByProvider events = Ok groups -> grouped groups events.
Proof.
  intros H.
  now destruct (fold_groupStep_grouped_events events [] [] groups grouped_nil H).
Qed.

(** The [reduce] throws exactly when an event carries a provider name
    that is inherited from [Object.prototype]. *)
Lemma groupByProvider_throws (events : list TelemetryEvent) :
  (exists e, groupByProvider events = Throw e)
  <-> Exists (fun event => inherited (provider event) = true) events.
Proof.
  unfold groupByProvider. generalize (@nil Group).
  induction events as [|event events IH]; intros acc; cbn [fold_left groupStep].
  - split; [intros [e H]; discriminate H | intros H; inversion H].
  - destruct (inherited (provider event)) eqn:Einh.
    + rewrite StatsProps.fold_groupStep_thrown. split.
      * intros _. now left.
      * intros _. eexists. reflexivity.
    + rewrite IH. split.
      * intros H. now right.
      * intros H. inversion H as [? ? Hhd | ? ? Htl]; [congruence | exact Htl].
Qed.

End GroupingProps.

(* ================================================================== *)
(** ** The statistics of each provider *)

Module ProviderStatsProps.
Import Wire Telemetry TelemetryStats Terms Scenario GroupingProps.

Lemma stat_provider_entries (groups : list Group) :
  map stat_provider (map statsOfGroup groups) = map fst groups.
Proof. rewrite map_map. apply map_ext. reflexivity. Qed.

Lemma grouped_entries (groups : list Group) (events : list TelemetryEvent) :
  grouped groups events -> grouped (objectEntries groups) events.
Proof.
  intros [Hnd [Hgroups Hcover]].
  pose proof (StatsProps.objectEntries_perm groups) as Hperm.
  split; [|split].
  - eapply Permutation_NoDup; [|exact Hnd].
    apply Permutation_map. now symmetry.
  - intros g Hg. apply Hgroups. eapply Permutation_in; [exact Hperm | exact Hg].
  - intros event He. eapply Permutation_in; [|exact (Hcover event He)].
    apply Permutation_map. now symmetry.
Qed.

(** The statistics over a list of events: one entry per provider, computed
    from the events of that provider. *)
Lemma statsOver_entries (events : list TelemetryEvent) (stats : list ProviderStats) :
  statsOver events = Ok stats ->
  NoDup (map stat_provider stats)
  /\ (forall s, In s stats ->
                eventsOf (stat_provider s) events <> []
                /\ s = statsOfGroup (stat_provider s, eventsOf (stat_provider s) events))
  /\ (forall event, In event events -> In (provider event) (map stat_provider stats)).
Proof.
  unfold statsOver. intros H.
  destruct (groupByProvider events) as [groups|e] eqn:E; [|discriminate H].
  injection H as <-.
  destruct (grouped_entries _ _ (groupByProvider_grouped _ _ E))
    as [Hnd [Hgroups Hcover]].
  rewrite stat_provider_entries. split; [exact Hnd | split; [|exact Hcover]].
  intros s Hs. apply in_map_iff in Hs as [g [<- Hg]].
  destruct (Hgroups g Hg) as [Hevents Hne].
  change (stat_provider (statsOfGroup g)) with (fst g).
  rewrite <- Hevents. split; [exact Hne | now destruct g].
Qed.

(** The result of [getTelemetryStats] has one entry per provider that
    occurs among the events of the window, and the entry of a provider is
    computed from exactly the events of that provider, in their order. *)
Theorem getTelemetryStats_per_provider
        (timeWindow : option TimeWindow) (w : World) (stats : list ProviderStats) :
  getTelemetryStats timeWindow w = Ok stats ->
  let relevant := relevantEvents (clock w) timeWindow (telemetryBuffer w) in
  NoDup (map stat_provider stats)
  /\ (forall s, In s stats ->
                eventsOf (stat_provider s) relevant <> []
                /\ s = statsOfGroup (stat_provider s, eventsOf (stat_provider s) relevant))
  /\ (forall event, In event relevant -> In (provider event) (map stat_provider stats)).
Proof.
  intros H relevant. unfold getTelemetryStats in H. fold relevant in H.
  destruct (statsOver_entries relevant stats H) as [Hnd [Hentry Hcover]].
  split; [exact Hnd | split; [exact Hentry | exact Hcover]].
Qed.

Lemma getTelemetryStats_per_provider_witness :
  NoDup (map stat_provider [mkStats "OpenAI" 1 1 0 0 0 0 42 (10000 # 100)])
  /\ (forall s, In s [mkStats "OpenAI" 1 1 0 0 0 0 42 (10000 # 100)] ->
                eventsOf (stat_provider s)
                         (relevantEvents (clock oneEventWorld) None
                                         (telemetryBuffer oneEventWorld)) <> []
                /\ s = statsOfGroup
                         (stat_provider s,
                          eventsOf (stat_provider s)
                                   (relevantEvents (clock oneEventWorld) None
                                                   (telemetryBuffer oneEventWorld))))
  /\ (forall event,
        In event (relevantEvents (clock oneEventWorld) None
                                 (telemetryBuffer oneEventWorld)) ->
        In (provider event)
           (map stat_provider [mkStats "OpenAI" 1 1 0 0 0 0 42 (10000 # 100)])).
Proof.
  apply (getTelemetryStats_per_provider None oneEventWorld).
  vm_compute. reflexivity.
Defined.

Lemma status_partition (events : list TelemetryEvent) :
  List.length events
  = (countStatus success events + countStatus failure events
     + countStatus fallback events + countStatus retry events)%nat.
Proof.
  unfold countStatus.
  induction events as [|event events IH]; [reflexivity|].
  cbn [filter List.length]. destruct (status event); cbn [Status_eqb List.length]; lia.
Qed.

(** In every entry the four status counts add up to the number of
    requests, which is at least 1: the average is never a division by 0. *)
Theorem getTelemetryStats_counts
        (timeWindow : option TimeWindow) (w : World) (stats : list ProviderStats) :
  getTelemetryStats timeWindow w = Ok stats ->
  forall s, In s stats ->
            (1 <= totalRequests s)%nat
            /\ totalRequests s
               = (successfulRequests s + failedRequests s
                  + fallbackRequests s + retryRequests s)%nat.
Proof.
  intros H s Hs.
  destruct (statsOver_entries _ stats H) as [_ [Hentry _]].
  destruct (Hentry s Hs) as [Hne ->].
  cbn [statsOfGroup totalRequests successfulRequests failedRequests
       fallbackRequests retryRequests fst snd].
  split; [|apply status_partition].
  destruct (eventsOf _ _); [contradiction | cbn [List.length]; lia].
Qed.

Lemma getTelemetryStats_counts_witness :
  (1 <= totalRequests (mkStats "OpenAI" 1 1 0 0 0 0 42 (10000 # 100)))%nat
  /\ totalRequests (mkStats "OpenAI" 1 1 0 0 0 0 42 (10000 # 100))
     = (successfulRequests (mkStats "OpenAI" 1 1 0 0 0 0 42 (10000 # 100))
        + failedRequests (mkStats "OpenAI" 1 1 0 0 0 0 42 (10000 # 100))
        + fallbackRequests (mkStats "OpenAI" 1 1 0 0 0 0 42 (10000 # 100))
        + retryRequests (mkStats "OpenAI" 1 1 0 0 0 0 42 (10000 # 100)))%nat.
Proof.
  apply (getTelemetryStats_counts (Some (Millis 0)) oneEventWorld
           [mkStats "OpenAI" 1 1 0 0 0 0 42 (10000 # 100)]).
  - vm_compute. reflexivity.
  - now left.
Defined.

Lemma roundDiv_bounds (a b lo hi : Z) :
  0 < b -> lo * b <= a <= hi * b -> lo <= roundDiv a b <= hi.
Proof.
  intros Hb [Hlo Hhi]. unfold roundDiv. split.
  - apply Z.div_le_lower_bound; lia.
  - apply Z.lt_succ_r. apply Z.div_lt_upper_bound; lia.
Qed.

Lemma sum_times_bounds (lo hi : Z) (events : list TelemetryEvent) :
  Forall (fun e => lo <= responseTimeMs e <= hi) events ->
  forall acc,
    acc + lo * Z.of_nat (List.length events)
    <= fold_left (fun sum e => sum + responseTimeMs e) events acc
    <= acc + hi * Z.of_nat (List.length events).
Proof.
  induction 1 as [|event events Hevent _ IH]; intros acc.
  - cbn [fold_left List.length]. lia.
  - cbn [fold_left]. specialize (IH (acc + responseTimeMs event)).
    rewrite length_cons, Nat2Z.inj_succ. lia.
Qed.

Lemma countStatus_le (st : Status) (events : list TelemetryEvent) :
  (countStatus st events <= List.length events)%nat.
Proof. apply filter_length_le. Qed.

(** In every entry the success rate lies between 0 and 100, and the
    average response time lies between any two bounds that hold for the
    response times of the events of the window. *)
Theorem getTelemetryStats_bounds
        (timeWindow : option TimeWindow) (w : World) (stats : list ProviderStats)
        (lo hi : Z) :
  getTelemetryStats timeWindow w = Ok stats ->
  Forall (fun e => lo <= responseTimeMs e <= hi)
         (relevantEvents (clock w) timeWindow (telemetryBuffer w)) ->
  forall s, In s stats ->
            (0 <= successRate s)%Q /\ (successRate s <= 100)%Q
            /\ lo <= avgResponseTime s <= hi.
Proof.
  intros H Hbounds s Hs.
  destruct (statsOver_entries _ stats H) as [_ [Hentry _]].
  destruct (Hentry s Hs) as [Hne ->].
  set (events := eventsOf _ _) in *.
  assert (Hlen : (0 < List.length events)%nat)
    by (destruct events; [contradiction | cbn [List.length]; lia]).
  pose proof (countStatus_le success events) as Hsucc.
  cbn [statsOfGroup successRate avgResponseTime fst snd].
  replace (0 <? List.length events)%nat with true
    by (symmetry; now apply Nat.ltb_lt).
  assert (Hrate : 0 <= roundDiv (Z.of_nat (countStatus success events) * 10000)
                                (Z.of_nat (List.length events)) <= 10000)
    by (apply roundDiv_bounds; lia).
  split; [|split].
  - unfold Qle. cbn [Qnum Qden]. lia.
  - unfold Qle. cbn [Qnum Qden]. lia.
  - apply roundDiv_bounds; [lia|].
    assert (Hsub : Forall (fun e => lo <= responseTimeMs e <= hi) events).
    { apply Forall_forall. intros e He. apply filter_In in He as [He _].
      revert e He. now apply Forall_forall. }
    pose proof (sum_times_bounds lo hi events Hsub 0). lia.
Qed.

Lemma getTelemetryStats_bounds_witness :
  (0 <= successRate (mkStats "OpenAI" 1 1 0 0 0 0 42 (10000 # 100)))%Q
  /\ (successRate (mkStats "OpenAI" 1 1 0 0 0 0 42 (10000 # 100)) <= 100)%Q
  /\ 0 <= avgResponseTime (mkStats "OpenAI" 1 1 0 0 0 0 42 (10000 # 100)) <= 30000.
Proof.
  apply (getTelemetryStats_bounds None oneEventWorld
           [mkStats "OpenAI" 1 1 0 0 0 0 42 (10000 # 100)] 0 30000).
  - vm_compute. reflexivity.
  - repeat constructor; vm_compute; discriminate.
  - now left.
Defined.

(** [getTelemetryStats] throws, a [TypeError], exactly when an event of the
    window carries a provider name inherited from [Object.prototype]. *)
Theorem getTelemetryStats_throws (timeWindow : option TimeWindow) (w : World) :
  ((exists e, getTelemetryStats timeWindow w = Throw e)
   <-> Exists (fun event => inherited (provider event) = true)
              (relevantEvents (clock w) timeWindow (telemetryBuffer w)))
  /\ (forall e, getTelemetryStats timeWindow w = Throw e -> errorName e = "TypeError").
Proof.
  unfold getTelemetryStats, statsOver.
  set (relevant := relevantEvents _ _ _). split.
  - rewrite <- groupByProvider_throws.
    destruct (groupByProvider relevant) as [groups|e]; split.
    + intros [e H]; discriminate H.
    + intros [e H]; discriminate H.
    + intros _. now exists e.
    + intros _. now exists e.
  - unfold groupByProvider. generalize (@nil Group).
    induction relevant as [|event events IH]; intros acc e; cbn [fold_left groupStep].
    + discriminate.
    + destruct (inherited (provider event)).
      * rewrite StatsProps.fold_groupStep_thrown. intros H. now injection H as <-.
      * apply IH.
Qed.

Lemma getTelemetryStats_throws_witness :
  exists e,
    getTelemetryStats None
      (mkWorld [mkEvent 1700000000000 "generate-story" "constructor" success 10
                        None None None None] 1700000005000 [])
    = Throw e.
Proof.
  apply (proj1 (getTelemetryStats_throws None
                  (mkWorld [mkEvent 1700000000000 "generate-story" "constructor"
                                    success 10 None None None None]
                           1700000005000 []))).
  left. reflexivity.
Defined.

(** For two windows other than 0, the events of the shorter window are
    among the events of the longer one, and the events of any window are
    events of the buffer. *)
Theorem relevantEvents_monotone (now a b : Z) (buf : list TelemetryEvent) :
  a <> 0 -> b <> 0 -> a <= b ->
  incl (relevantEvents now (Some (Millis a)) buf)
       (relevantEvents now (Some (Millis b)) buf)
  /\ incl (relevantEvents now (Some (Millis b)) buf) buf.
Proof.
  intros Ha Hb Hab. unfold relevantEvents. cbn [cutoffTime truthy].
  replace (a =? 0) with false by (symmetry; now apply Z.eqb_neq).
  replace (b =? 0) with false by (symmetry; now apply Z.eqb_neq).
  cbn [negb minus laterThan]. split.
  - intros event H. apply filter_In in H as [Hin Hlater].
    apply filter_In. split; [exact Hin|].
    apply Z.ltb_lt in Hlater. apply Z.ltb_lt. lia.
  - intros event H. now apply filter_In in H.
Qed.

Lemma relevantEvents_monotone_witness :
  incl (relevantEvents 1700000005000 (Some (Millis 1000)) (telemetryBuffer oneEventWorld))
       (relevantEvents 1700000005000 (Some (Millis 60000)) (telemetryBuffer oneEventWorld))
  /\ incl (relevantEvents 1700000005000 (Some (Millis 60000))
                          (telemetryBuffer oneEventWorld))
          (telemetryBuffer oneEventWorld).
Proof.
  apply (relevantEvents_monotone 1700000005000 1000 60000
                                 (telemetryBuffer oneEventWorld)); lia.
Defined.

Lemma tokensOf_app (a b : list TelemetryEvent) :
  tokensOf (a ++ b) = tokensOf a + tokensOf b.
Proof.
  induction a as [|event a IH]; [reflexivity|].
  cbn [app tokensOf fold_right]. fold (tokensOf (a ++ b)). fold (tokensOf a).
  rewrite IH. lia.
Qed.

Lemma fold_left_tokens (events : list TelemetryEvent) :
  forall acc,
    fold_left (fun sum e => sum + match tokenUsage e with
                                  | Some n => n
                                  | None => 0
                                  end) events acc
    = acc + tokensOf events.
Proof.
  induction events as [|event events IH]; intros acc.
  - cbn. lia.
  - cbn [fold_left tokensOf fold_right]. fold (tokensOf events). rewrite IH. lia.
Qed.

Lemma pushInto_tokens (k : string) (event : TelemetryEvent) (acc : list Group) :
  groupedTokens (pushInto k event acc) = groupedTokens acc + tokensOf [event].
Proof.
  induction acc as [|[k' events] rest IH];
    [cbn [pushInto groupedTokens fold_right snd]; lia|].
  cbn [pushInto]. destruct (String.eqb k k'); cbn [groupedTokens fold_right snd].
  - rewrite tokensOf_app. fold (groupedTokens rest). lia.
  - fold (groupedTokens (pushInto k event rest)). fold (groupedTokens rest).
    rewrite IH. lia.
Qed.

Lemma fold_groupStep_tokens (events : list TelemetryEvent) :
  forall acc groups,
    fold_left groupStep events (Ok acc) = Ok groups ->
    groupedTokens groups = groupedTokens acc + tokensOf events.
Proof.
  induction events as [|event events IH]; intros acc groups H.
  - injection H as <-. cbn. lia.
  - cbn [fold_left groupStep] in H.
    destruct (inherited (provider event)).
    + rewrite StatsProps.fold_groupStep_thrown in H. discriminate H.
    + rewrite (IH _ _ H), pushInto_tokens.
      change (event :: events) with ([event] ++ events).
      rewrite tokensOf_app. lia.
Qed.

Lemma groupedTokens_perm (a b : list Group) :
  Permutation a b -> groupedTokens a = groupedTokens b.
Proof.
  induction 1 as [| g a b _ IH | g h a | a b c _ IH1 _ IH2].
  - reflexivity.
  - change (groupedTokens (g :: a)) with (tokensOf (snd g) + groupedTokens a).
    change (groupedTokens (g :: b)) with (tokensOf (snd g) + groupedTokens b).
    lia.
  - change (groupedTokens (h :: g :: a))
      with (tokensOf (snd h) + (tokensOf (snd g) + groupedTokens a)).
    change (groupedTokens (g :: h :: a))
      with (tokensOf (snd g) + (tokensOf (snd h) + groupedTokens a)).
    lia.
  - lia.
Qed.

(** Tokens are conserved: the token totals of the entries add up to the
    tokens reported by the events of the window, an event without a report
    counting 0. *)
Theorem getTelemetryStats_tokens
        (timeWindow : option TimeWindow) (w : World) (stats : list ProviderStats) :
  getTelemetryStats timeWindow w = Ok stats ->
  fold_right Z.add 0 (map totalTokens stats)
  = tokensOf (relevantEvents (clock w) timeWindow (telemetryBuffer w)).
Proof.
  unfold getTelemetryStats, statsOver, groupByProvider.
  set (relevant := relevantEvents _ _ _).
  destruct (fold_left groupStep relevant (Ok [])) as [groups|e] eqn:E; [|discriminate].
  intros H. injection H as <-.
  pose proof (fold_groupStep_tokens _ _ _ E) as Htokens.
  rewrite <- (groupedTokens_perm _ _ (StatsProps.objectEntries_perm groups)) in Htokens.
  cbn [groupedTokens fold_right] in Htokens. rewrite Z.add_0_l in Htokens.
  rewrite <- Htokens. clear.
  induction (objectEntries groups) as [|g l IH]; [reflexivity|].
  cbn [map fold_right groupedTokens]. fold (groupedTokens l). rewrite IH.
  f_equal. cbn [statsOfGroup totalTokens]. rewrite fold_left_tokens. lia.
Qed.

Lemma getTelemetryStats_tokens_witness :
  fold_right Z.add 0 (map totalTokens [mkStats "OpenAI" 1 1 0 0 0 0 42 (10000 # 100)])
  = tokensOf (relevantEvents (clock oneEventWorld) None (telemetryBuffer oneEventWorld)).
Proof.
  apply (getTelemetryStats_tokens None oneEventWorld).
  vm_compute. reflexivity.
Defined.

End ProviderStatsProps.

(* ================================================================== *)
(** ** Logging *)

Module LogProps.
Import Wire Telemetry TelemetryStats Terms Scenario.

Lemma pushRotate_last (e d : TelemetryEvent) (buf : list TelemetryEvent) :
  last (pushRotate e buf) d = e.
Proof.
  unfold pushRotate.
  destruct (MAX_BUFFER_SIZE <? List.length (buf ++ [e]))%nat eqn:E.
  - destruct buf as [|x buf].
    + cbn in E. discriminate E.
    + cbn [app tl]. apply last_last.
  - apply last_last.
Qed.

Lemma pushRotate_size (e : TelemetryEvent) (buf : list TelemetryEvent) :
  (List.length buf <= MAX_BUFFER_SIZE)%nat ->
  List.length (pushRotate e buf) = Nat.min (S (List.length buf)) MAX_BUFFER_SIZE.
Proof.
  intros H. unfold pushRotate. rewrite length_app. cbn [List.length].
  destruct (Nat.ltb_spec MAX_BUFFER_SIZE (List.length buf + 1)) as [Hlt|Hge].
  - destruct buf as [|x buf]; cbn [app tl List.length] in *.
    + unfold MAX_BUFFER_SIZE in Hlt. lia.
    + rewrite length_app. cbn [List.length]. lia.
  - rewrite length_app. cbn [List.length]. lia.
Qed.

(** A call of [log] leaves the clock alone and puts the stamped event at
    the end of the buffer; on a buffer within its capacity the size grows by
    one, up to the capacity. *)
Theorem log_newest_last (fn : string) (ev : EventInput) (w : World) :
  (forall d, last (telemetryBuffer (log fn ev w)) d = stamp (clock w) fn ev)
  /\ clock (log fn ev w) = clock w
  /\ printedOf (trace (log fn ev w)) = printedOf (trace w) ++ [stamp (clock w) fn ev]
  /\ ((getTelemetryBufferSize w <= MAX_BUFFER_SIZE)%nat ->
      getTelemetryBufferSize (log fn ev w)
      = Nat.min (S (getTelemetryBufferSize w)) MAX_BUFFER_SIZE).
Proof.
  split; [|split; [|split]].
  - intros d. apply pushRotate_last.
  - reflexivity.
  - cbn [log perform trace]. now rewrite RetryProps.printedOf_app.
  - apply pushRotate_size.
Qed.

Lemma log_newest_last_witness :
  getTelemetryBufferSize (log "generate-story" (successInput 7)
                              (runLogs (burst 1000) emptyWorld))
  = Nat.min (S (getTelemetryBufferSize (runLogs (burst 1000) emptyWorld)))
            MAX_BUFFER_SIZE.
Proof.
  apply (log_newest_last "generate-story" (successInput 7)
                         (runLogs (burst 1000) emptyWorld)).
  apply Nat.leb_le. vm_compute. reflexivity.
Defined.

(** After [clearTelemetryBuffer] every window gives empty statistics, and
    the buffer then holds the newest of the events logged since, at most
    1000 of them. *)
Theorem clear_then_log (calls : list LogCall) (timeWindow : option TimeWindow)
        (w : World) :
  getTelemetryBufferSize (clearTelemetryBuffer w) = 0%nat
  /\ getTelemetryStats timeWindow (clearTelemetryBuffer w) = Ok []
  /\ telemetryBuffer (runLogs calls (clearTelemetryBuffer w))
     = lastN MAX_BUFFER_SIZE (map recorded calls)
  /\ getTelemetryBufferSize (runLogs calls (clearTelemetryBuffer w))
     = Nat.min (List.length calls) MAX_BUFFER_SIZE.
Proof.
  assert (H : telemetryBuffer (runLogs calls (clearTelemetryBuffer w))
              = lastN MAX_BUFFER_SIZE ([] ++ map recorded calls))
    by (apply BufferProps.runLogs_buffer; reflexivity).
  cbn [app] in H.
  split; [reflexivity | split; [reflexivity | split; [exact H|]]].
  unfold getTelemetryBufferSize.
  rewrite H, BufferProps.lastN_length, length_map. lia.
Qed.

End LogProps.

(* ================================================================== *)
(** ** The effects of a request *)

Module EffectProps.
Import AiConfig Wire Telemetry AIClient Terms Scenario RetryProps.

Section Reaches.
Variable P : TelemetryEvent -> Prop.
Variable call : HttpCall.

Lemma reaches_refl (w : World) : reaches P call w w [].
Proof.
  unfold reaches. rewrite app_nil_r. repeat split; constructor.
Qed.

Lemma reaches_trans (w w1 w2 : World) (r1 r2 : list Effect) :
  reaches P call w w1 r1 -> reaches P call w1 w2 r2 ->
  reaches P call w w2 (r1 ++ r2).
Proof.
  intros [Ht1 [Hb1 [Hp1 Hf1]]] [Ht2 [Hb2 [Hp2 Hf2]]].
  unfold reaches. rewrite printedOf_app, fetchesOf_app.
  repeat split.
  - now rewrite Ht2, Ht1, app_assoc.
  - unfold pushAll in *. now rewrite fold_left_app, <- Hb1.
  - apply Forall_app. now split.
  - apply Forall_app. now split.
Qed.

Lemma reaches_timerLog t st tokens err w :
  P (stamp (clock w) (timerFunction t)
           (mkInput (timerProvider t) st (clock w - startTime t) tokens err None None)) ->
  reaches P call w (timerLog t st tokens err w)
          [Printed (stamp (clock w) (timerFunction t)
                          (mkInput (timerProvider t) st (clock w - startTime t)
                                   tokens err None None))].
Proof.
  intros H. unfold reaches. repeat split.
  - repeat constructor. exact H.
  - constructor.
Qed.

Lemma reaches_sleep ms w : reaches P call w (sleep ms w) [Slept ms].
Proof. unfold reaches. repeat split; constructor. Qed.

End Reaches.

Lemma reaches_attemptOnce P net p request authHeader w :
  reaches P (chatCall p request authHeader) w
          (snd (attemptOnce net p request authHeader w))
          [Fetched (chatCall p request authHeader)].
Proof.
  unfold reaches.
  rewrite attemptOnce_trace, attemptOnce_buffer.
  repeat split; repeat constructor.
Qed.

Lemma timed_stamp (t : PerformanceTimer) st tokens err now :
  timed t (stamp now (timerFunction t)
                 (mkInput (timerProvider t) st (now - startTime t) tokens err None None)).
Proof. repeat split. Qed.

Section Prints.
Variable client : Client.
Variable net : Network.
Variable provider : AIProvider.
Variable request : AIRequest.
Variable authHeader : string.
Variable timer : PerformanceTimer.

Let call := chatCall provider request authHeader.
Let ofTimer := fun ev => timed timer ev /\ status ev <> fallback.

Lemma ofTimer_stamp st tokens err now :
  st <> fallback ->
  ofTimer (stamp now (timerFunction timer)
                 (mkInput (timerProvider timer) st (now - startTime timer)
                          tokens err None None)).
Proof. intros H. split; [apply timed_stamp | exact H]. Qed.

(** Whatever the loop does, it prints events of its timer only, none of
    them a fallback event, stores each of them, and sends its one request
    at most once per iteration. *)
Lemma attemptLoop_reaches (remaining : nat) :
  forall attempt lastError w,
  exists rest,
    reaches ofTimer call w
            (snd (attemptLoop client net provider request authHeader timer
                              remaining attempt lastError w)) rest
    /\ (List.length (fetchesOf rest) <= remaining)%nat.
Proof.
  induction remaining as [|remaining IH]; intros attempt lastError w.
  - eexists. split.
    + cbn [attemptLoop snd]. apply reaches_timerLog.
      apply ofTimer_stamp. discriminate.
    + cbn. lia.
  - rewrite attemptLoop_S.
    set (w1 := if 0 <? attempt then _ else w).
    assert (Hw1 : exists r1, reaches ofTimer call w w1 r1 /\ fetchesOf r1 = []).
    { subst w1. destruct (0 <? attempt).
      - eexists. split.
        + eapply reaches_trans; [|apply reaches_sleep].
          apply reaches_timerLog. apply ofTimer_stamp. discriminate.
        + reflexivity.
      - exists []. split; [apply reaches_refl | reflexivity]. }
    destruct Hw1 as [r1 [Hr1 Hf1]].
    pose proof (reaches_attemptOnce ofTimer net provider request authHeader w1) as Hr2.
    fold call in Hr2.
    destruct (attemptOnce net provider request authHeader w1) as [[data|error] w2];
      cbn [snd] in Hr2.
    + eexists. split.
      * cbn [snd]. eapply reaches_trans; [exact Hr1|].
        eapply reaches_trans; [exact Hr2|].
        apply reaches_timerLog. apply ofTimer_stamp. discriminate.
      * rewrite !fetchesOf_app, Hf1. cbn. lia.
    + destruct (negb (isRetryableError error)
                || (attempt =? maxRetries (retryConfig client))).
      * eexists. split.
        -- cbn [snd]. eapply reaches_trans; [exact Hr1|].
           eapply reaches_trans; [exact Hr2|].
           apply reaches_timerLog. apply ofTimer_stamp. discriminate.
        -- rewrite !fetchesOf_app, Hf1. cbn. lia.
      * destruct (IH (attempt + 1) (Some error) w2) as [r3 [Hr3 Hf3]].
        eexists. split.
        -- eapply reaches_trans; [exact Hr1|].
           eapply reaches_trans; [exact Hr2 | exact Hr3].
        -- rewrite !fetchesOf_app, Hf1. cbn [app fetchesOf flat_map List.length].
           lia.
Qed.

End Prints.

Lemma makeRequest_reaches client net provider request authHeader w :
  exists rest,
    reaches (fun ev => timed (newTimer (name provider) (clientFunction client) w) ev
                       /\ status ev <> fallback)
            (chatCall provider request authHeader) w
            (snd (makeRequest client net provider request authHeader w)) rest
    /\ (List.length (fetchesOf rest)
        <= Z.to_nat (maxRetries (retryConfig client) + 1))%nat.
Proof. apply attemptLoop_reaches. Qed.

Lemma pushAll_bounded (events buf : list TelemetryEvent) :
  (List.length buf <= MAX_BUFFER_SIZE)%nat ->
  (List.length (pushAll events buf) <= MAX_BUFFER_SIZE)%nat.
Proof.
  revert buf. induction events as [|event events IH]; intros buf H; [exact H|].
  cbn [pushAll fold_left]. apply IH.
  rewrite LogProps.pushRotate_size by exact H. lia.
Qed.

End EffectProps.

(* ================================================================== *)
(** ** The outcome of a request *)

Module RequestProps.
Import AiConfig Wire Telemetry AIClient Terms Scenario RetryProps EffectProps.

Lemma attemptOnce_outcomeError net p request authHeader w :
  match outcomeError (net (List.length (fetchesOf (trace w)))
                          (chatCall p request authHeader)) with
  | Some e => fst (attemptOnce net p request authHeader w) = Throw e
  | None => exists data, fst (attemptOnce net p request authHeader w) = Ok data
  end.
Proof.
  unfold attemptOnce, fetch, outcomeError.
  destruct (net _ _) as [ms status text [data|e]|ms e];
    [destruct (negb (responseOk status)) .. |]; try reflexivity.
  now exists data.
Qed.

Section Outcome.
Variable client : Client.
Variable net : Network.
Variable provider : AIProvider.
Variable request : AIRequest.
Variable authHeader : string.
Variable timer : PerformanceTimer.

Let cfg := retryConfig client.
Let loop := attemptLoop client net provider request authHeader timer.

(** The loop ends with the event of its outcome, after retry events only;
    its result is the result of an attempt, and an error that the classifier
    marks retryable is thrown only when every allowed attempt has been
    made. *)
Lemma attemptLoop_outcome (r : nat) :
  forall (a : nat) (lastError : option JsError) (w : World),
    Z.of_nat a + Z.of_nat r = maxRetries cfg ->
    exists (rest : list Effect) (final : TelemetryEvent),
      trace (snd (loop (S r) (Z.of_nat a) lastError w))
      = trace w ++ rest ++ [Printed final]
      /\ Forall (fun ev => status ev = retry) (printedOf rest)
      /\ match fst (loop (S r) (Z.of_nat a) lastError w) with
         | Ok data =>
             status final = success
             /\ tokenUsage final = usage data
             /\ errorMessage final = None
             /\ exists wa, fst (attemptOnce net provider request authHeader wa) = Ok data
         | Throw e =>
             status final = failure
             /\ tokenUsage final = None
             /\ errorMessage final = Some (message e)
             /\ (exists wa, fst (attemptOnce net provider request authHeader wa) = Throw e)
             /\ (isRetryableError e = true -> List.length (fetchesOf rest) = S r)
         end.
Proof.
  induction r as [|r IH]; intros a lastError w Hbound;
    destruct (backoff_opening client timer a w) as [pre [Hopen Htrace]];
    fold cfg in Hopen, Htrace;
    assert (Hpre : Forall (fun ev => status ev = retry) (printedOf pre)
                   /\ fetchesOf pre = [])
      by (destruct a; cbn [opening] in Hopen;
          [subst pre; split; [constructor | reflexivity]
                      | destruct Hopen as [ev [Hev ->]];
                        split; [repeat constructor; exact Hev | reflexivity]]);
    destruct Hpre as [Hpre Hfpre];
    unfold loop; rewrite attemptLoop_S; fold cfg;
    match type of Htrace with
    | trace ?w1 = _ =>
        pose proof (attemptOnce_trace net provider request authHeader w1) as Hfetch;
        destruct (attemptOnce net provider request authHeader w1)
          as [[data|error] w2] eqn:Eattempt; cbn [snd] in Hfetch
    end.
  - eexists (pre ++ [Fetched _]), _. cbn [fst snd]. split; [|split].
    + unfold timerSuccess. rewrite timerLog_trace, Hfetch, Htrace.
      rewrite <- !app_assoc. reflexivity.
    + rewrite printedOf_app. cbn. now rewrite app_nil_r.
    + repeat split. eexists. rewrite Eattempt. reflexivity.
  - replace (Z.of_nat a =? maxRetries cfg) with true
      by (symmetry; apply Z.eqb_eq; lia).
    rewrite orb_true_r.
    eexists (pre ++ [Fetched _]), _. cbn [fst snd]. split; [|split].
    + unfold timerFailure. rewrite timerLog_trace, Hfetch, Htrace.
      rewrite <- !app_assoc. reflexivity.
    + rewrite printedOf_app. cbn. now rewrite app_nil_r.
    + repeat split.
      * eexists. rewrite Eattempt. reflexivity.
      * intros _. rewrite fetchesOf_app, Hfpre. reflexivity.
  - eexists (pre ++ [Fetched _]), _. cbn [fst snd]. split; [|split].
    + unfold timerSuccess. rewrite timerLog_trace, Hfetch, Htrace.
      rewrite <- !app_assoc. reflexivity.
    + rewrite printedOf_app. cbn. now rewrite app_nil_r.
    + repeat split. eexists. rewrite Eattempt. reflexivity.
  - replace (Z.of_nat a =? maxRetries cfg) with false
      by (symmetry; apply Z.eqb_neq; lia).
    rewrite orb_false_r.
    destruct (isRetryableError error) eqn:Eretry; cbn [negb].
    + replace (Z.of_nat a + 1) with (Z.of_nat (S a)) by lia.
      destruct (IH (S a) (Some error) w2 ltac:(lia))
        as [rest [final [Hshape [Hretries Hout]]]].
      fold loop.
      exists (pre ++ [Fetched (chatCall provider request authHeader)] ++ rest), final.
      split; [|split].
      * rewrite Hshape, Hfetch, Htrace. rewrite <- !app_assoc. reflexivity.
      * rewrite !printedOf_app. apply Forall_app. split; [exact Hpre|].
        cbn [printedOf flat_map app]. exact Hretries.
      * destruct (fst (loop (S r) (Z.of_nat (S a)) (Some error) w2)) as [data|e].
        -- exact Hout.
        -- destruct Hout as [H1 [H2 [H3 [H4 H5]]]]. repeat split; try assumption.
           intros He. rewrite !fetchesOf_app, Hfpre.
           cbn [fetchesOf flat_map app List.length]. f_equal.
           fold (fetchesOf rest). now apply H5.
    + eexists (pre ++ [Fetched _]), _. cbn [fst snd]. split; [|split].
      * unfold timerFailure. rewrite timerLog_trace, Hfetch, Htrace.
        rewrite <- !app_assoc. reflexivity.
      * rewrite printedOf_app. cbn. now rewrite app_nil_r.
      * repeat split.
        -- eexists. rewrite Eattempt. reflexivity.
        -- intros H. rewrite Eretry in H. discriminate H.
Qed.

End Outcome.

(** The last event that [makeRequest] prints tells its outcome: a success
    event with the reported token usage when it returns, a failure event with
    the message of the thrown error when it throws; the events printed before
    it are retry events. *)
Theorem makeRequest_terminal_event client net provider request authHeader w :
  0 <= maxRetries (retryConfig client) ->
  exists (rest : list Effect) (final : TelemetryEvent),
    trace (snd (makeRequest client net provider request authHeader w))
    = trace w ++ rest ++ [Printed final]
    /\ Forall (fun ev => status ev = retry) (printedOf rest)
    /\ match fst (makeRequest client net provider request authHeader w) with
       | Ok data =>
           status final = success /\ tokenUsage final = usage data
           /\ errorMessage final = None
       | Throw e =>
           status final = failure /\ tokenUsage final = None
           /\ errorMessage final = Some (message e)
       end.
Proof.
  intros Hmax. unfold makeRequest.
  replace (Z.to_nat (maxRetries (retryConfig client) + 1))
    with (S (Z.to_nat (maxRetries (retryConfig client)))) by lia.
  destruct (attemptLoop_outcome client net provider request authHeader
              (newTimer (name provider) (clientFunction client) w)
              (Z.to_nat (maxRetries (retryConfig client))) 0 None w ltac:(lia))
    as [rest [final [Htrace [Hretries Hout]]]].
  exists rest, final. split; [exact Htrace | split; [exact Hretries|]].
  change (Z.of_nat 0) with 0 in Hout.
  destruct (fst (attemptLoop _ _ _ _ _ _ _ _ _ _)); tauto.
Qed.

Lemma makeRequest_terminal_event_witness :
  exists (rest : list Effect) (final : TelemetryEvent),
    trace (snd (makeRequest storyClient recovering textPrimary shortRequest
                            "Bearer sk-test" emptyWorld))
    = [] ++ rest ++ [Printed final]
    /\ Forall (fun ev => status ev = retry) (printedOf rest)
    /\ status final = success /\ tokenUsage final = Some 57
       /\ errorMessage final = None.
Proof.
  apply (makeRequest_terminal_event storyClient recovering textPrimary shortRequest
                                    "Bearer sk-test" emptyWorld).
  simpl. lia.
Defined.



(** Against a provider whose every answer is a failure that the classifier
    marks retryable, a call makes exactly [maxRetries + 1] requests and then
    throws such an error. *)
Theorem makeRequest_exhausts client net provider request authHeader w :
  0 <= maxRetries (retryConfig client) ->
  (forall n call, exists e, outcomeError (net n call) = Some e
                            /\ isRetryableError e = true) ->
  exists rest e,
    trace (snd (makeRequest client net provider request authHeader w)) = trace w ++ rest
    /\ fst (makeRequest client net provider request authHeader w) = Throw e
    /\ isRetryableError e = true
    /\ Z.of_nat (List.length (fetchesOf rest)) = maxRetries (retryConfig client) + 1
    /\ Z.of_nat (List.length (sleepsOf rest)) = maxRetries (retryConfig client).
Proof.
  intros Hmax Hnet.
  assert (Hattempt : forall wa data,
             fst (attemptOnce net provider request authHeader wa) <> Ok data).
  { intros wa data H.
    pose proof (attemptOnce_outcomeError net provider request authHeader wa) as Ho.
    destruct (Hnet (List.length (fetchesOf (trace wa)))
                   (chatCall provider request authHeader)) as [e [He _]].
    rewrite He in Ho. congruence. }
  assert (Hretry : forall wa e,
             fst (attemptOnce net provider request authHeader wa) = Throw e ->
             isRetryableError e = true).
  { intros wa e H.
    pose proof (attemptOnce_outcomeError net provider request authHeader wa) as Ho.
    destruct (Hnet (List.length (fetchesOf (trace wa)))
                   (chatCall provider request authHeader)) as [e' [He' Hr]].
    rewrite He' in Ho. congruence. }
  destruct (makeRequest_shape client net provider request authHeader w Hmax)
    as [evs [final [Hlen [_ [_ Hshape]]]]].
  unfold makeRequest in *.
  replace (Z.to_nat (maxRetries (retryConfig client) + 1))
    with (S (Z.to_nat (maxRetries (retryConfig client)))) in * by lia.
  destruct (attemptLoop_outcome client net provider request authHeader
              (newTimer (name provider) (clientFunction client) w)
              (Z.to_nat (maxRetries (retryConfig client))) 0 None w ltac:(lia))
    as [rest [final' [Htrace [_ Hout]]]].
  change (Z.of_nat 0) with 0 in Htrace, Hout.
  destruct (fst (attemptLoop _ _ _ _ _ _ _ _ _ _)) as [data|e].
  - destruct Hout as [_ [_ [_ [wa Hwa]]]]. now apply Hattempt in Hwa.
  - destruct Hout as [_ [_ [_ [[wa Hwa] Hcount]]]].
    pose proof (Hretry wa e Hwa) as He. specialize (Hcount He).
    eexists _, e. split; [exact Hshape|]. split; [reflexivity|]. split; [exact He|].
    rewrite Htrace in Hshape. apply app_inv_head in Hshape.
    assert (Hf : fetchesOf (rest ++ [Printed final']) = fetchesOf rest)
      by (rewrite fetchesOf_app; cbn; now rewrite app_nil_r).
    rewrite <- Hshape.
    assert (Hn : List.length evs = Z.to_nat (maxRetries (retryConfig client))).
    { apply (f_equal fetchesOf) in Hshape. rewrite Hf in Hshape.
      apply (f_equal (@List.length _)) in Hshape. rewrite Hcount in Hshape.
      change (Fetched ?c :: ?l) with ([Fetched c] ++ l) in Hshape.
      rewrite !fetchesOf_app, fetches_blocks in Hshape.
      cbn [fetchesOf flat_map app] in Hshape.
      rewrite app_nil_r in Hshape. cbn [List.length] in Hshape.
      rewrite repeat_length in Hshape. lia. }
    split.
    + rewrite Hf, Hcount. lia.
    + rewrite Hshape.
      change (Fetched ?c :: ?l) with ([Fetched c] ++ l).
      rewrite !sleepsOf_app. cbn [sleepsOf flat_map app]. rewrite app_nil_r.
      fold (sleepsOf (flat_map
                        (retryBlock (retryConfig client)
                                    (chatCall provider request authHeader))
                        (combine (seq 1 (List.length evs)) evs))).
      rewrite sleeps_blocks, length_map, length_seq. lia.
Qed.

Lemma makeRequest_exhausts_witness :
  exists rest e,
    trace (snd (makeRequest storyClient unavailable textPrimary shortRequest
                            "Bearer sk-test" emptyWorld)) = [] ++ rest
    /\ fst (makeRequest storyClient unavailable textPrimary shortRequest
                        "Bearer sk-test" emptyWorld) = Throw e
    /\ isRetryableError e = true
    /\ Z.of_nat (List.length (fetchesOf rest)) = 2 + 1
    /\ Z.of_nat (List.length (sleepsOf rest)) = 2.
Proof.
  apply (makeRequest_exhausts storyClient unavailable textPrimary shortRequest
                              "Bearer sk-test" emptyWorld).
  - simpl. lia.
  - intros n call. eexists. split; reflexivity.
Defined.

(** With a negative [maxRetries] the loop is not entered: no request is
    made, a failure event with the text [Unknown error] is recorded, and the
    call throws [Unexpected error in retry logic]. *)
Theorem makeRequest_without_attempt client net provider request authHeader w :
  maxRetries (retryConfig client) < 0 ->
  exists ev,
    fst (makeRequest client net provider request authHeader w)
    = Throw (newError "Unexpected error in retry logic")
    /\ trace (snd (makeRequest client net provider request authHeader w))
       = trace w ++ [Printed ev]
    /\ status ev = failure
    /\ errorMessage ev = Some "Unknown error"
    /\ responseTimeMs ev = 0.
Proof.
  intros Hneg. unfold makeRequest.
  replace (Z.to_nat (maxRetries (retryConfig client) + 1)) with 0%nat by lia.
  cbn [attemptLoop fst snd errorOr messageOr].
  eexists. split; [reflexivity|]. unfold timerFailure. rewrite timerLog_trace.
  split; [reflexivity|]. cbn. repeat split. lia.
Qed.

Lemma makeRequest_without_attempt_witness :
  exists ev,
    fst (makeRequest noAttemptClient unavailable textPrimary shortRequest
                     "Bearer sk-test" emptyWorld)
    = Throw (newError "Unexpected error in retry logic")
    /\ trace (snd (makeRequest noAttemptClient unavailable textPrimary shortRequest
                               "Bearer sk-test" emptyWorld))
       = [] ++ [Printed ev]
    /\ status ev = failure
    /\ errorMessage ev = Some "Unknown error"
    /\ responseTimeMs ev = 0.
Proof.
  apply (makeRequest_without_attempt noAttemptClient unavailable textPrimary
                                     shortRequest "Bearer sk-test" emptyWorld).
  simpl. lia.
Defined.

(** Every event that [makeRequest] prints is stored in the buffer, in the
    order of printing, carries the name of the provider and the function name
    of the client, measures its response time from the start of the call,
    and is never a fallback event. *)
Theorem makeRequest_events client net provider request authHeader w :
  exists rest,
    trace (snd (makeRequest client net provider request authHeader w)) = trace w ++ rest
    /\ telemetryBuffer (snd (makeRequest client net provider request authHeader w))
       = pushAll (printedOf rest) (telemetryBuffer w)
    /\ Forall (fun ev => Telemetry.provider ev = name provider
                         /\ functionName ev = clientFunction client
                         /\ responseTimeMs ev = timestamp ev - clock w
                         /\ status ev <> fallback)
              (printedOf rest).
Proof.
  destruct (makeRequest_reaches client net provider request authHeader w)
    as [rest [[Htrace [Hbuf [Hevents _]]] _]].
  exists rest. split; [exact Htrace | split; [exact Hbuf|]].
  eapply Forall_impl; [|exact Hevents].
  intros ev [[Hp [Hf Ht]] Hs]. repeat split; assumption.
Qed.

(** [makeRequest] sends one and the same request at most
    [maxRetries + 1] times, and at least once when [maxRetries] is not
    negative. *)
Theorem makeRequest_attempts_bounded client net provider request authHeader w :
  exists n : nat,
    fetchesOf (trace (snd (makeRequest client net provider request authHeader w)))
    = fetchesOf (trace w) ++ repeat (chatCall provider request authHeader) n
    /\ (n <= Z.to_nat (maxRetries (retryConfig client) + 1))%nat
    /\ (0 <= maxRetries (retryConfig client) -> (1 <= n)%nat).
Proof.
  destruct (makeRequest_reaches client net provider request authHeader w)
    as [rest [[Htrace [_ [_ Hcalls]]] Hcount]].
  exists (List.length (fetchesOf rest)). split; [|split; [exact Hcount|]].
  - rewrite Htrace, fetchesOf_app. f_equal.
    apply Forall_eq_repeat. eapply Forall_impl; [|exact Hcalls].
    intros c H. now symmetry.
  - intros Hmax.
    destruct (makeRequest_fetches client net provider request authHeader w Hmax)
      as [n Hn].
    rewrite Htrace, fetchesOf_app in Hn. apply app_inv_head in Hn.
    rewrite Hn. cbn [repeat List.length]. lia.
Qed.

Lemma makeRequest_attempts_bounded_witness :
  exists n : nat,
    fetchesOf (trace (snd (makeRequest storyClient recovering textPrimary shortRequest
                                       "Bearer sk-test" emptyWorld)))
    = [] ++ repeat (chatCall textPrimary shortRequest "Bearer sk-test") n
    /\ (n <= 3)%nat
    /\ (0 <= 2 -> (1 <= n)%nat).
Proof.
  apply (makeRequest_attempts_bounded storyClient recovering textPrimary shortRequest
                                      "Bearer sk-test" emptyWorld).
Defined.

(** No sleep of [makeRequest] is longer than [maxDelayMs], there are at
    most [maxRetries] of them, and so the call sleeps for at most
    [maxRetries * maxDelayMs] milliseconds in all. *)
Theorem makeRequest_sleep_bounded client net provider request authHeader w :
  0 <= maxRetries (retryConfig client) ->
  exists rest,
    trace (snd (makeRequest client net provider request authHeader w)) = trace w ++ rest
    /\ Forall (fun d => d <= maxDelayMs (retryConfig client)) (sleepsOf rest)
    /\ Z.of_nat (List.length (sleepsOf rest)) <= maxRetries (retryConfig client)
    /\ (0 <= maxDelayMs (retryConfig client) ->
        fold_right Z.add 0 (sleepsOf rest)
        <= maxRetries (retryConfig client) * maxDelayMs (retryConfig client)).
Proof.
  intros Hmax.
  destruct (makeRequest_shape client net provider request authHeader w Hmax)
    as [evs [final [Hlen [_ [_ Hshape]]]]].
  eexists. split; [exact Hshape|].
  change (Fetched ?c :: ?l) with ([Fetched c] ++ l).
  rewrite !sleepsOf_app. cbn [sleepsOf flat_map app]. rewrite app_nil_r.
  fold (sleepsOf (flat_map
                    (retryBlock (retryConfig client)
                                (chatCall provider request authHeader))
                    (combine (seq 1 (List.length evs)) evs))).
  rewrite sleeps_blocks.
  set (cfg := retryConfig client) in *.
  assert (Hall : forall l : list nat,
             Forall (fun d => d <= maxDelayMs cfg)
                    (map (fun k => backoffDelay cfg (Z.of_nat k)) l)).
  { intros l. apply Forall_forall. intros d Hd.
    apply in_map_iff in Hd as [k [<- _]]. apply Z.le_min_r. }
  split; [apply Hall | split].
  - rewrite length_map, length_seq. exact Hlen.
  - intros Hdelay.
    assert (Hsum : forall l : list nat,
               fold_right Z.add 0 (map (fun k => backoffDelay cfg (Z.of_nat k)) l)
               <= Z.of_nat (List.length l) * maxDelayMs cfg).
    { induction l as [|k l IH]; [cbn; lia|].
      cbn [map fold_right]. rewrite length_cons, Nat2Z.inj_succ.
      pose proof (Z.le_min_r (baseDelayMs cfg * backoffMultiplier cfg ^ (Z.of_nat k - 1))
                             (maxDelayMs cfg)) as Hk.
      fold (backoffDelay cfg (Z.of_nat k)) in Hk. lia. }
    specialize (Hsum (seq 1 (List.length evs))). rewrite length_seq in Hsum.
    nia.
Qed.

Lemma makeRequest_sleep_bounded_witness :
  exists rest,
    trace (snd (makeRequest storyClient unavailable textPrimary shortRequest
                            "Bearer sk-test" emptyWorld)) = [] ++ rest
    /\ Forall (fun d => d <= 8000) (sleepsOf rest)
    /\ Z.of_nat (List.length (sleepsOf rest)) <= 2
    /\ (0 <= 8000 -> fold_right Z.add 0 (sleepsOf rest) <= 2 * 8000).
Proof.
  apply (makeRequest_sleep_bounded storyClient unavailable textPrimary shortRequest
                                   "Bearer sk-test" emptyWorld).
  simpl. lia.
Defined.

(** With a base delay that is not negative and a multiplier of at least 1,
    the back-off never shrinks from one retry to the next; the first retry
    waits for the base delay, capped by [maxDelayMs]. *)
Theorem backoffDelay_monotone (cfg : RetryConfig) (j k : Z) :
  0 <= baseDelayMs cfg -> 1 <= backoffMultiplier cfg -> 1 <= j <= k ->
  backoffDelay cfg j <= backoffDelay cfg k
  /\ backoffDelay cfg 1 = Z.min (baseDelayMs cfg) (maxDelayMs cfg).
Proof.
  intros Hbase Hmult Hjk. unfold backoffDelay. split.
  - apply Z.min_le_compat_r. apply Z.mul_le_mono_nonneg_l; [exact Hbase|].
    apply Z.pow_le_mono_r; lia.
  - change (1 - 1) with 0. rewrite Z.pow_0_r, Z.mul_1_r. reflexivity.
Qed.

Lemma backoffDelay_monotone_witness :
  backoffDelay DEFAULT_RETRY_CONFIG 2 <= backoffDelay DEFAULT_RETRY_CONFIG 5
  /\ backoffDelay DEFAULT_RETRY_CONFIG 1 = Z.min 1000 8000.
Proof.
  apply (backoffDelay_monotone DEFAULT_RETRY_CONFIG 2 5); simpl; lia.
Defined.

(** An answer with status 429, 502, 503 or 504 makes the attempt fail with
    an error that the classifier marks retryable, whatever the body says. *)
Theorem transient_status_retryable
        net p request authHeader w elapsed status text json :
  net (List.length (fetchesOf (trace w))) (chatCall p request authHeader)
  = Responds elapsed status text json ->
  In status [429; 502; 503; 504] ->
  exists e,
    fst (attemptOnce net p request authHeader w) = Throw e
    /\ message e = ("HTTP " ++ Str.ofZ status ++ ": " ++ text)%string
    /\ isRetryableError e = true.
Proof.
  intros Hnet Hstatus. unfold attemptOnce, fetch. rewrite Hnet.
  eexists. cbn [In] in Hstatus.
  destruct Hstatus as [<-|[<-|[<-|[<-|[]]]]];
    (split; [reflexivity | split; [reflexivity|]]);
    rewrite ClassifierProps.isRetryableError_existsb;
    apply existsb_exists.
  - exists "429". split; [cbn; tauto | reflexivity].
  - exists "502". split; [cbn; tauto | reflexivity].
  - exists "503". split; [cbn; tauto | reflexivity].
  - exists "504". split; [cbn; tauto | reflexivity].
Qed.

Lemma transient_status_retryable_witness :
  exists e,
    fst (attemptOnce unavailable textPrimary shortRequest "Bearer sk-test" emptyWorld)
    = Throw e
    /\ message e = ("HTTP " ++ Str.ofZ 503 ++ ": " ++ "Service Unavailable")%string
    /\ isRetryableError e = true.
Proof.
  eapply (transient_status_retryable unavailable textPrimary shortRequest
                                     "Bearer sk-test" emptyWorld).
  - reflexivity.
  - cbn. tauto.
Defined.

(** Adapting twice for the same provider is adapting once, and the adapted
    [max_tokens] never exceeds the limit of the provider. *)
Theorem adaptRequestForProvider_idempotent (request : AIRequest) (p : AIProvider) :
  adaptRequestForProvider (adaptRequestForProvider request p) p
  = adaptRequestForProvider request p
  /\ max_tokens (adaptRequestForProvider request p) <= maxTokens p.
Proof.
  unfold adaptRequestForProvider.
  destruct (String.eqb (name p) "OVH"), (String.eqb (name p) "OpenAI");
    cbn [max_tokens messages Wire.temperature Wire.model];
    (split; [f_equal; lia | lia]).
Qed.

End RequestProps.

(* ================================================================== *)
(** ** The effects of the fallback protocol *)

Module FallbackEffectProps.
Import AiConfig Wire Telemetry AIClient Terms Scenario RetryProps EffectProps.

Lemma fallbackEvents_app (a b : list TelemetryEvent) :
  fallbackEvents (a ++ b) = fallbackEvents a ++ fallbackEvents b.
Proof. apply filter_app. Qed.

Lemma fallbackEvents_none (events : list TelemetryEvent) :
  Forall (fun ev => status ev <> fallback) events -> fallbackEvents events = [].
Proof.
  intros H. apply StatsProps.filter_none.
  eapply Forall_impl; [|exact H].
  intros ev. cbv beta. destruct (status ev); intros Hev; try reflexivity.
  now contradiction Hev.
Qed.

(** What a call on one provider does, whether or not its header thunk
    returns. *)
Lemma requestWith_effects client net provider request getAuthHeader w :
  exists rest,
    trace (snd (requestWith client net provider request getAuthHeader w))
    = trace w ++ rest
    /\ telemetryBuffer (snd (requestWith client net provider request getAuthHeader w))
       = pushAll (printedOf rest) (telemetryBuffer w)
    /\ Forall (fun ev => status ev <> fallback) (printedOf rest)
    /\ (List.length (fetchesOf rest)
        <= Z.to_nat (maxRetries (retryConfig client) + 1))%nat
    /\ (forall h, getAuthHeader = Ok h ->
                  Forall (eq (chatCall provider request h)) (fetchesOf rest))
    /\ (forall e, getAuthHeader = Throw e -> rest = []).
Proof.
  destruct getAuthHeader as [h|e]; cbn [requestWith snd].
  - destruct (makeRequest_reaches client net provider request h w)
      as [rest [[Htrace [Hbuf [Hevents Hcalls]]] Hcount]].
    exists rest.
    split; [exact Htrace|]. split; [exact Hbuf|]. split; [|split; [exact Hcount|split]].
    + eapply Forall_impl; [|exact Hevents]. now intros ev [_ H].
    + intros h' H. now injection H as <-.
    + discriminate.
  - exists []. rewrite app_nil_r.
    split; [reflexivity|]. split; [reflexivity|]. split; [constructor|].
    split; [cbn; lia|]. split; [intros h H; discriminate H | reflexivity].
Qed.

Lemma fallbackEntry_effects client primaryProvider primaryError w1 :
  trace (fallbackEntry client primaryProvider primaryError w1)
  = trace w1 ++ [Printed (fallbackEvent client primaryProvider primaryError w1)]
  /\ telemetryBuffer (fallbackEntry client primaryProvider primaryError w1)
     = pushRotate (fallbackEvent client primaryProvider primaryError w1)
                  (telemetryBuffer w1).
Proof.
  unfold fallbackEntry, timerFallback, fallbackEvent.
  rewrite timerLog_trace, timerLog_buffer. cbn [newTimer startTime timerFunction
                                                  timerProvider].
  now rewrite Z.sub_diag.
Qed.

(** The effects of a whole call of [makeRequestWithFallback]. *)
Lemma fallback_run_effects client net primaryProvider fallbackProvider request
      getPrimaryAuthHeader getFallbackAuthHeader w :
  exists rest,
    trace (snd (makeRequestWithFallback client net primaryProvider fallbackProvider
                  request getPrimaryAuthHeader getFallbackAuthHeader w))
    = trace w ++ rest
    /\ telemetryBuffer
         (snd (makeRequestWithFallback client net primaryProvider fallbackProvider
                 request getPrimaryAuthHeader getFallbackAuthHeader w))
       = pushAll (printedOf rest) (telemetryBuffer w)
    /\ (List.length (fetchesOf rest)
        <= 2 * Z.to_nat (maxRetries (retryConfig client) + 1))%nat
    /\ match requestWith client net primaryProvider request getPrimaryAuthHeader w with
       | (Ok _, _) => fallbackEvents (printedOf rest) = []
       | (Throw e, w1) =>
           fallbackEvents (printedOf rest)
           = [fallbackEvent client primaryProvider e w1]
       end.
Proof.
  destruct (requestWith_effects client net primaryProvider request
              getPrimaryAuthHeader w)
    as [r1 [Ht1 [Hb1 [He1 [Hc1 _]]]]].
  destruct (requestWith client net primaryProvider request getPrimaryAuthHeader w)
    as [[response|primaryError] w1] eqn:Eprimary; cbn [snd] in Ht1, Hb1.
  - exists r1. unfold makeRequestWithFallback. rewrite Eprimary. cbn [snd].
    repeat split; try assumption; [lia | now apply fallbackEvents_none].
  - rewrite (FallbackProps.fallback_branch _ _ _ _ _ _ _ _ _ _ Eprimary).
    destruct (fallbackEntry_effects client primaryProvider primaryError w1)
      as [Hte Hbe].
    destruct (requestWith_effects client net fallbackProvider
                (adaptRequestForProvider request fallbackProvider)
                getFallbackAuthHeader
                (fallbackEntry client primaryProvider primaryError w1))
      as [r2 [Ht2 [Hb2 [He2 [Hc2 _]]]]].
    exists (r1 ++ [Printed (fallbackEvent client primaryProvider primaryError w1)] ++ r2).
    assert (Hsnd : forall (x : Result AIResponse * World),
               snd (match x with
                    | (Ok response, w3) => (Ok (mkUsed response fallbackProvider), w3)
                    | (Throw fallbackError, w3) =>
                        (Throw (bothFailed primaryProvider fallbackProvider
                                           primaryError fallbackError), w3)
                    end) = snd x)
      by (intros [[?|?] ?]; reflexivity).
    rewrite Hsnd, Ht2, Hb2, Hte, Hbe, Ht1, Hb1.
    rewrite !printedOf_app, !fetchesOf_app, !fallbackEvents_app.
    cbn [printedOf fetchesOf flat_map app].
    rewrite (fallbackEvents_none _ He1), (fallbackEvents_none _ He2).
    repeat split.
    + now rewrite <- !app_assoc.
    + unfold pushAll. now rewrite !fold_left_app.
    + rewrite length_app. lia.
Qed.

(** [makeRequestWithFallback] records a fallback event exactly when the
    call on the primary fails, and then exactly one: it carries the name of
    the primary and the message of its error, and a response time of 0, the
    timer being created at the moment it is read. *)
Theorem fallback_event_once client net primaryProvider fallbackProvider request
        getPrimaryAuthHeader getFallbackAuthHeader w :
  exists rest,
    trace (snd (makeRequestWithFallback client net primaryProvider fallbackProvider
                  request getPrimaryAuthHeader getFallbackAuthHeader w))
    = trace w ++ rest
    /\ ((forall response,
           fst (requestWith client net primaryProvider request getPrimaryAuthHeader w)
           = Ok response ->
           fallbackEvents (printedOf rest) = [])
        /\ (forall e,
              fst (requestWith client net primaryProvider request
                               getPrimaryAuthHeader w) = Throw e ->
              exists ev,
                fallbackEvents (printedOf rest) = [ev]
                /\ Telemetry.provider ev = name primaryProvider
                /\ errorMessage ev = Some (message e)
                /\ responseTimeMs ev = 0)).
Proof.
  destruct (fallback_run_effects client net primaryProvider fallbackProvider request
              getPrimaryAuthHeader getFallbackAuthHeader w)
    as [rest [Htrace [_ [_ Hfallback]]]].
  exists rest. split; [exact Htrace|].
  destruct (requestWith client net primaryProvider request getPrimaryAuthHeader w)
    as [[response|primaryError] w1]; cbn [fst]; split.
  - intros _ _. exact Hfallback.
  - intros e H. discriminate H.
  - intros response H. discriminate H.
  - intros e H. injection H as <-. eexists. split; [exact Hfallback|].
    repeat split.
Qed.

Lemma fallback_event_once_witness :
  exists ev,
    fallbackEvents
      (printedOf (trace (snd (makeRequestWithFallback
                                storyClient primaryDown textPrimary textFallback
                                shortRequest (Ok "Bearer sk-test")
                                (Ok "Bearer ovh-test") emptyWorld))))
    = [ev]
    /\ Telemetry.provider ev = "OpenAI"
    /\ errorMessage ev = Some "request timeout"
    /\ responseTimeMs ev = 0.
Proof.
  destruct (fallback_event_once storyClient primaryDown textPrimary textFallback
              shortRequest (Ok "Bearer sk-test") (Ok "Bearer ovh-test") emptyWorld)
    as [rest [Htrace [_ Hthrow]]].
  cbn [trace emptyWorld app] in Htrace. rewrite Htrace.
  apply (Hthrow (mkError "TypeError" "request timeout")).
  vm_compute. reflexivity.
Defined.

(** A call of [makeRequestWithFallback] sends at most
    [2 * (maxRetries + 1)] requests, stores every event it prints, and keeps
    the buffer within its capacity. *)
Theorem fallback_run_bounded client net primaryProvider fallbackProvider request
        getPrimaryAuthHeader getFallbackAuthHeader w :
  (List.length (telemetryBuffer w) <= MAX_BUFFER_SIZE)%nat ->
  exists rest,
    trace (snd (makeRequestWithFallback client net primaryProvider fallbackProvider
                  request getPrimaryAuthHeader getFallbackAuthHeader w))
    = trace w ++ rest
    /\ telemetryBuffer
         (snd (makeRequestWithFallback client net primaryProvider fallbackProvider
                 request getPrimaryAuthHeader getFallbackAuthHeader w))
       = pushAll (printedOf rest) (telemetryBuffer w)
    /\ (List.length (fetchesOf rest)
        <= 2 * Z.to_nat (maxRetries (retryConfig client) + 1))%nat
    /\ (List.length
          (telemetryBuffer
             (snd (makeRequestWithFallback client net primaryProvider fallbackProvider
                     request getPrimaryAuthHeader getFallbackAuthHeader w)))
        <= MAX_BUFFER_SIZE)%nat.
Proof.
  intros Hbuf.
  destruct (fallback_run_effects client net primaryProvider fallbackProvider request
              getPrimaryAuthHeader getFallbackAuthHeader w)
    as [rest [Htrace [Hstored [Hcount _]]]].
  exists rest. repeat split; try assumption.
  rewrite Hstored. now apply pushAll_bounded.
Qed.

Lemma fallback_run_bounded_witness :
  exists rest,
    trace (snd (makeRequestWithFallback storyClient unavailable textPrimary textFallback
                  shortRequest (Ok "Bearer sk-test") (Ok "Bearer ovh-test")
                  (runLogs (burst 1000) emptyWorld)))
    = trace (runLogs (burst 1000) emptyWorld) ++ rest
    /\ telemetryBuffer
         (snd (makeRequestWithFallback storyClient unavailable textPrimary textFallback
                 shortRequest (Ok "Bearer sk-test") (Ok "Bearer ovh-test")
                 (runLogs (burst 1000) emptyWorld)))
       = pushAll (printedOf rest) (telemetryBuffer (runLogs (burst 1000) emptyWorld))
    /\ (List.length (fetchesOf rest) <= 2 * Z.to_nat (2 + 1))%nat
    /\ (List.length
          (telemetryBuffer
             (snd (makeRequestWithFallback storyClient unavailable textPrimary
                     textFallback shortRequest (Ok "Bearer sk-test")
                     (Ok "Bearer ovh-test") (runLogs (burst 1000) emptyWorld))))
        <= MAX_BUFFER_SIZE)%nat.
Proof.
  apply (fallback_run_bounded storyClient unavailable textPrimary textFallback
           shortRequest (Ok "Bearer sk-test") (Ok "Bearer ovh-test")
           (runLogs (burst 1000) emptyWorld)).
  apply Nat.leb_le. vm_compute. reflexivity.
Defined.

(** When the header thunk of the primary throws, no request is sent to the
    primary: the fallback event carries the message of the thunk's error,
    every request of the call is the adapted request to the fallback, a
    result names the fallback as the provider used, and an error keeps the
    message of the thunk's error. *)
Theorem primary_header_failure client net primaryProvider fallbackProvider request
        (thunkError : JsError) (fallbackHeader : string) w :
  exists rest,
    trace (snd (makeRequestWithFallback client net primaryProvider fallbackProvider
                  request (Throw thunkError) (Ok fallbackHeader) w))
    = trace w ++ Printed (fallbackEvent client primaryProvider thunkError w) :: rest
    /\ Forall (eq (chatCall fallbackProvider
                            (adaptRequestForProvider request fallbackProvider)
                            fallbackHeader))
              (fetchesOf rest)
    /\ (forall used,
          fst (makeRequestWithFallback client net primaryProvider fallbackProvider
                 request (Throw thunkError) (Ok fallbackHeader) w) = Ok used ->
          usedProvider used = fallbackProvider)
    /\ (forall err,
          fst (makeRequestWithFallback client net primaryProvider fallbackProvider
                 request (Throw thunkError) (Ok fallbackHeader) w) = Throw err ->
          Str.includes (message err) (message thunkError) = true).
Proof.
  rewrite (FallbackProps.fallback_branch client net primaryProvider fallbackProvider
             request (Throw thunkError) (Ok fallbackHeader) w thunkError w eq_refl).
  destruct (fallbackEntry_effects client primaryProvider thunkError w) as [Hte _].
  destruct (requestWith_effects client net fallbackProvider
              (adaptRequestForProvider request fallbackProvider) (Ok fallbackHeader)
              (fallbackEntry client primaryProvider thunkError w))
    as [rest [Ht [_ [_ [_ [Hcalls _]]]]]].
  exists rest.
  destruct (requestWith client net fallbackProvider _ (Ok fallbackHeader) _)
    as [[response|fallbackError] w3]; cbn [fst snd] in *;
    (split; [rewrite Ht, Hte, <- app_assoc; reflexivity|]);
    (split; [now apply Hcalls|]); split.
  - intros used H. now injection H as <-.
  - intros err H. discriminate H.
  - intros used H. discriminate H.
  - intros err H. injection H as <-. cbn [message bothFailed newError].
    apply StrFacts.includes_iff.
    exists ("Both AI providers failed. Primary (" ++ name primaryProvider ++ "): ")%string,
           (". " ++ "Fallback (" ++ name fallbackProvider ++ "): "
            ++ message fallbackError)%string.
    rewrite !StrFacts.append_assoc. reflexivity.
Qed.

Lemma primary_header_failure_witness :
  usedProvider (mkUsed story textFallback) = textFallback.
Proof.
  destruct (primary_header_failure storyClient primaryDown otherProvider textFallback
              shortRequest (newError "Unknown provider: Mistral") "Bearer ovh-test"
              emptyWorld) as [rest [_ [_ [Hused _]]]].
  apply Hused. vm_compute. reflexivity.
Defined.

End FallbackEffectProps.

(* ================================================================== *)
(** ** Health probes *)

Module ProbeProps.
Import AiConfig Wire Telemetry AIClient HealthCheck ProviderHealth Terms Scenario.

Lemma filter_length_all {A : Type} (f : A -> bool) (l : list A) :
  List.length (filter f l) = List.length l <-> Forall (fun x => f x = true) l.
Proof.
  induction l as [|x l IH]; cbn [filter List.length].
  - split; [constructor | reflexivity].
  - pose proof (filter_length_le f l) as Hle.
    destruct (f x) eqn:E; cbn [List.length]; split.
    + intros H. constructor; [exact E | apply IH; lia].
    + intros H. inversion H; subst. f_equal. now apply IH.
    + intros H. lia.
    + intros H. inversion H; subst. congruence.
Qed.

Lemma filter_length_none {A : Type} (f : A -> bool) (l : list A) :
  List.length (filter f l) = 0%nat <-> Forall (fun x => f x = false) l.
Proof.
  induction l as [|x l IH]; cbn [filter List.length].
  - split; [constructor | reflexivity].
  - destruct (f x) eqn:E; cbn [List.length]; split.
    + discriminate.
    + intros H. inversion H; subst. congruence.
    + intros H. constructor; [exact E | now apply IH].
    + intros H. inversion H; subst. now apply IH.
Qed.

(** The system is healthy exactly when every probe is healthy (also when
    there is no probe), unhealthy exactly when there are probes and none is
    healthy, and degraded in every other case. *)
Theorem overall_classification (results : list HealthCheckResult) :
  (overall results = healthy <-> Forall (fun r => isHealthy r = true) results)
  /\ (overall results = unhealthy
      <-> results <> [] /\ Forall (fun r => isHealthy r = false) results)
  /\ (overall results = degraded
      <-> Exists (fun r => isHealthy r = true) results
          /\ Exists (fun r => isHealthy r = false) results).
Proof.
  pose proof (filter_length_all isHealthy results) as Hall.
  pose proof (filter_length_none isHealthy results) as Hnone.
  pose proof (filter_length_le isHealthy results) as Hle.
  assert (Hex1 : Exists (fun r => isHealthy r = true) results
                 <-> ~ Forall (fun r => isHealthy r = false) results).
  { rewrite <- Exists_Forall_neg by (intros r; destruct (isHealthy r);
                                         (now left) || (now right)).
    rewrite !Exists_exists. split; intros [r [Hin Hr]]; exists r; (split; [exact Hin|]).
    - congruence.
    - now destruct (isHealthy r). }
  assert (Hex2 : Exists (fun r => isHealthy r = false) results
                 <-> ~ Forall (fun r => isHealthy r = true) results).
  { rewrite <- Exists_Forall_neg by (intros r; destruct (isHealthy r);
                                         (now left) || (now right)).
    rewrite !Exists_exists. split; intros [r [Hin Hr]]; exists r; (split; [exact Hin|]).
    - congruence.
    - now destruct (isHealthy r). }
  unfold overall.
  destruct (Nat.eqb_spec (List.length (filter isHealthy results))
                         (List.length results)) as [Heq|Hne].
  - apply Hall in Heq. split; [tauto|]. split; split.
    + discriminate.
    + intros [Hnil Hfalse]. destruct results as [|r results]; [contradiction|].
      inversion Heq; inversion Hfalse; subst. congruence.
    + discriminate.
    + intros [_ H]. apply Hex2 in H. contradiction.
  - destruct (Nat.ltb_spec 0 (List.length (filter isHealthy results))) as [Hpos|Hzero].
    + split; [|split]; split; try discriminate.
      * intros H. apply Hall in H. contradiction.
      * intros [_ H]. apply Hnone in H. lia.
      * intros _. split; [apply Hex1 | apply Hex2]; intros H.
        -- apply Hnone in H. lia.
        -- apply Hall in H. contradiction.
      * reflexivity.
    + assert (Hz : List.length (filter isHealthy results) = 0%nat) by lia.
      apply Hnone in Hz. split; [|split]; split; try discriminate.
      * intros H. apply Hall in H. contradiction.
      * intros _. split; [|exact Hz].
        intros ->. apply Hne. reflexivity.
      * reflexivity.
      * intros [H _]. apply Hex1 in H. contradiction.
Qed.

Lemma overall_classification_witness :
  overall [ mkHealth "OpenAI" true 180 None 1700000000180;
            mkHealth "OVH" false 0 (Some "API key not configured or invalid")
                     1700000000000 ]
  = degraded.
Proof.
  apply (proj2 (proj2 (overall_classification _))).
  split; [left | right; left]; reflexivity.
Defined.

Lemma available_probeCall (env : Env) (p : AIProvider) :
  checkProviderAvailability env p = true ->
  exists call, probeCall env p = Ok call /\ method call = "GET" /\ body call = None.
Proof.
  intros H. pose proof (RegistryProps.available_header env p H) as Hh.
  revert H. unfold checkProviderAvailability, probeCall. rewrite Hh.
  destruct (String.eqb (name p) "OpenAI"); cbn [orb].
  - intros _. eexists. repeat split.
  - destruct (String.eqb (name p) "OVH").
    + intros _. eexists. repeat split.
    + destruct (String.eqb (name p) "OVH_SDXL").
      * intros _. eexists. repeat split.
      * discriminate.
Qed.

(** A probe names its provider, sends at most one request and reports at
    most the timeout as its response time; a provider reported healthy is
    available, was asked with exactly one [GET], and carries no error. *)
Theorem checkProvider_result (env : Env) (net : Network) (p : AIProvider) (w : World) :
  exists calls,
    fetchesOf (trace (snd (checkProvider env net p w))) = fetchesOf (trace w) ++ calls
    /\ (List.length calls <= 1)%nat
    /\ provider (fst (checkProvider env net p w)) = name p
    /\ HealthCheck.responseTimeMs (fst (checkProvider env net p w)) <= timeout
    /\ (isHealthy (fst (checkProvider env net p w)) = true ->
        checkProviderAvailability env p = true
        /\ error (fst (checkProvider env net p w)) = None
        /\ exists call, calls = [call] /\ method call = "GET").
Proof.
  unfold checkProvider.
  destruct (checkProviderAvailability env p) eqn:Eavail; cbn [negb].
  - destruct (available_probeCall env p Eavail) as [call [Hcall [Hget _]]].
    unfold performProviderHealthCheck, fetchWithTimeout. rewrite Hcall.
    exists [call].
    destruct (Z.leb_spec timeout
                (match net (List.length (fetchesOf (trace w))) call with
                 | Responds ms _ _ _ => ms
                 | Rejects ms _ => ms
                 end)) as [Hlate|Hearly].
    + cbn [fst snd logProviderHealth perform advance trace clock provider isHealthy
           HealthCheck.responseTimeMs error].
      rewrite !RetryProps.fetchesOf_app. cbn [fetchesOf flat_map app].
      rewrite app_nil_r. repeat split; try (cbn; lia); try discriminate.
    + destruct (net (List.length (fetchesOf (trace w))) call)
        as [ms status text json|ms e];
        cbn [fst snd logProviderHealth perform advance trace clock provider isHealthy
             HealthCheck.responseTimeMs error];
        rewrite !RetryProps.fetchesOf_app; cbn [fetchesOf flat_map app];
        rewrite app_nil_r; repeat split; try (cbn; lia); try discriminate.
      exists call. split; [reflexivity | exact Hget].
  - exists []. cbn [fst snd logProviderHealth perform trace provider isHealthy
                    HealthCheck.responseTimeMs error].
    rewrite RetryProps.fetchesOf_app. cbn [fetchesOf flat_map app].
    unfold timeout. repeat split; try (cbn; lia); try discriminate.
Qed.

Lemma checkProvider_result_witness :
  exists calls,
    fetchesOf (trace (snd (checkProvider liveKeys primaryDown textFallback emptyWorld)))
    = [] ++ calls
    /\ (List.length calls <= 1)%nat
    /\ provider (fst (checkProvider liveKeys primaryDown textFallback emptyWorld)) = "OVH"
    /\ HealthCheck.responseTimeMs
         (fst (checkProvider liveKeys primaryDown textFallback emptyWorld)) <= 5000
    /\ (isHealthy (fst (checkProvider liveKeys primaryDown textFallback emptyWorld)) = true ->
        checkProviderAvailability liveKeys textFallback = true
        /\ error (fst (checkProvider liveKeys primaryDown textFallback emptyWorld)) = None
        /\ exists call, calls = [call] /\ method call = "GET").
Proof.
  apply (checkProvider_result liveKeys primaryDown textFallback emptyWorld).
Defined.

(** When the answer to the probe of an available provider takes the
    timeout or longer, the probe is cut off at the timeout: the provider is
    reported unhealthy after exactly 5000 milliseconds, with the timeout
    message as its error. *)
Theorem checkProvider_timeout (env : Env) (net : Network) (p : AIProvider) (w : World) :
  checkProviderAvailability env p = true ->
  (forall call, timeout <= elapsedOf (net (List.length (fetchesOf (trace w))) call)) ->
  fst (checkProvider env net p w)
  = mkHealth (name p) false 5000 (Some "Health check timeout after 5000ms")
             (clock w + 5000).
Proof.
  intros Havail Hslow. unfold checkProvider. rewrite Havail. cbn [negb].
  destruct (available_probeCall env p Havail) as [call [Hcall _]].
  unfold performProviderHealthCheck, fetchWithTimeout. rewrite Hcall.
  specialize (Hslow call). unfold elapsedOf in Hslow.
  apply Z.leb_le in Hslow. rewrite Hslow.
  cbn [fst snd advance perform clock]. f_equal. unfold timeout. lia.
Qed.

Lemma checkProvider_timeout_witness :
  fst (checkProvider liveKeys slow textPrimary emptyWorld)
  = mkHealth "OpenAI" false 5000 (Some "Health check timeout after 5000ms")
             (1700000000000 + 5000).
Proof.
  apply (checkProvider_timeout liveKeys slow textPrimary emptyWorld).
  - reflexivity.
  - intros call. vm_compute. discriminate.
Defined.

(** When the probe of an available provider is answered in time, the
    provider is reported healthy exactly when the status is below 500 and
    neither 401 nor 403, so also for 404 and 405; the response time is that
    of the answer and no error is reported. *)
Theorem checkProvider_status (env : Env) (net : Network) (p : AIProvider) (w : World)
        (elapsed status : Z) (text : string) (json : AIResponse + JsError) :
  checkProviderAvailability env p = true ->
  (forall call, net (List.length (fetchesOf (trace w))) call
                = Responds elapsed status text json) ->
  elapsed < timeout ->
  (isHealthy (fst (checkProvider env net p w)) = true
   <-> status < 500 /\ status <> 401 /\ status <> 403)
  /\ error (fst (checkProvider env net p w)) = None
  /\ HealthCheck.responseTimeMs (fst (checkProvider env net p w)) = elapsed.
Proof.
  intros Havail Hnet Hfast. unfold checkProvider. rewrite Havail. cbn [negb].
  destruct (available_probeCall env p Havail) as [call [Hcall _]].
  unfold performProviderHealthCheck, fetchWithTimeout. rewrite Hcall, (Hnet call).
  replace (timeout <=? elapsed) with false by (symmetry; apply Z.leb_gt; exact Hfast).
  cbn [fst snd advance perform clock isHealthy error HealthCheck.responseTimeMs].
  split; [|split; [reflexivity | lia]].
  rewrite !andb_true_iff, !negb_true_iff, Z.ltb_lt, !Z.eqb_neq. tauto.
Qed.

Lemma checkProvider_status_witness :
  (isHealthy (fst (checkProvider liveKeys notFound imagePrimary emptyWorld)) = true
   <-> 404 < 500 /\ 404 <> 401 /\ 404 <> 403)
  /\ error (fst (checkProvider liveKeys notFound imagePrimary emptyWorld)) = None
  /\ HealthCheck.responseTimeMs
       (fst (checkProvider liveKeys notFound imagePrimary emptyWorld)) = 150.
Proof.
  apply (checkProvider_status liveKeys notFound imagePrimary emptyWorld 150 404
           "Not Found" (inr (mkError "SyntaxError" "Unexpected token N"))).
  - reflexivity.
  - reflexivity.
  - reflexivity.
Defined.

Lemma checkProviderHealth_with_header (env : Env) (net : Network) (p : AIProvider)
      (w : World) (h : string) :
  getAuthHeader env p = inl h ->
  fetchesOf (trace (snd (checkProviderHealth env net p w)))
  = fetchesOf (trace w) ++ [modelsCall p h]
  /\ (fst (checkProviderHealth env net p w) = true
      <-> exists elapsed text json,
            net (List.length (fetchesOf (trace w))) (modelsCall p h)
            = Responds elapsed 200 text json).
Proof.
  intros Hh. unfold checkProviderHealth, fetch. rewrite Hh.
  destruct (net (List.length (fetchesOf (trace w))) (modelsCall p h))
    as [ms status text json|ms e];
    cbn [fst snd advance perform trace];
    rewrite RetryProps.fetchesOf_app; cbn [fetchesOf flat_map app];
    (split; [reflexivity|]); split.
  - intros H. apply Z.eqb_eq in H. subst status. now eexists _, _, _.
  - intros [elapsed [text' [json' H]]]. injection H as _ -> _ _. reflexivity.
  - discriminate.
  - intros [elapsed [text' [json' H]]]. discriminate H.
Qed.

(** [checkProviderHealth] asks no question about the credential: for a
    provider with a known authorization scheme it sends exactly one [GET] to
    the model listing, with whatever the environment holds as the token (the
    text [undefined] when it holds none), and answers [true] exactly when the
    status is 200; for any other provider it answers [false] without a
    request. *)
Theorem checkProviderHealth_request (env : Env) (net : Network) (p : AIProvider)
        (w : World) :
  (known p = false -> checkProviderHealth env net p w = (false, w))
  /\ (known p = true ->
      fetchesOf (trace (snd (checkProviderHealth env net p w)))
      = fetchesOf (trace w) ++ [modelsCall p (bearer (credentialOf env p))]
      /\ (fst (checkProviderHealth env net p w) = true
          <-> exists elapsed text json,
                net (List.length (fetchesOf (trace w)))
                    (modelsCall p (bearer (credentialOf env p)))
                = Responds elapsed 200 text json)).
Proof.
  split.
  - intros Hknown. unfold checkProviderHealth.
    now rewrite (proj1 (RegistryProps.getAuthHeader_known env p) Hknown).
  - intros Hknown. apply checkProviderHealth_with_header.
    exact (proj2 (RegistryProps.getAuthHeader_known env p) Hknown).
Qed.

Lemma checkProviderHealth_request_witness :
  checkProviderHealth liveKeys primaryDown otherProvider emptyWorld = (false, emptyWorld)
  /\ fetchesOf (trace (snd (checkProviderHealth noKeys primaryDown textFallback emptyWorld)))
     = [] ++ [modelsCall textFallback "Bearer undefined"].
Proof.
  split.
  - apply (proj1 (checkProviderHealth_request liveKeys primaryDown otherProvider
                                               emptyWorld)). reflexivity.
  - apply (proj2 (checkProviderHealth_request noKeys primaryDown textFallback
                                               emptyWorld)). reflexivity.
Defined.

End ProbeProps.
